(** * A todo-list REST backend: Server/index.js and Server/Models/Todo.js

    The four request handlers of Server/index.js ([GET /get], [POST /add],
    [DELETE /delete/:id], [PATCH /update/:id]) are embedded as functions on
    an explicit server state.  The state holds the two module-level
    variables of the file, [inMemoryTodos] and [useDb], and the contents of
    the MongoDB collection behind [TodoModel].

    JavaScript objects are finite maps from property names to values, so
    that [Object.assign], [Object.keys] and property reads are the map
    operations they are in the source. *)

From Stdlib Require Import ZArith String Ascii List Bool Lia.
From Stdlib Require DecimalString DecimalPos DecimalZ.
From stdpp Require Import base option gmap strings list fin_maps.

Open Scope string_scope.

#[local] Set Warnings "-register-all".

(** ** JavaScript values, as [express.json()] hands them to the handlers *)

Module Js.

(** Numbers are observed by the handlers only through [String(x)] and
    through truthiness.  [Int z] is an integer-valued double of magnitude
    below 1e21, which prints as its decimal numeral ([Int 0] stands for
    both zeros: each is falsy and prints as 0).  [Other shown] is any
    other double (a fraction, a huge magnitude, an infinity), carried by
    its printed form; none of them is falsy. *)
Inductive Number :=
| NaN
| Int (z : Z)
| Other (shown : string).

Inductive Val :=
| VUndefined
| VNull
| VBool (b : bool)
| VNum (n : Number)
| VStr (s : string)
| VArr (elems : list Val)
| VObj (props : list (string * Val)).

(** *** Strings

    A string is the sequence of its code units; the model covers the code
    units below 256, one [ascii] each. *)

Definition code (c : ascii) : N := N_of_ascii c.

(** WhiteSpace and LineTerminator code units below 256: TAB, LF, VT, FF,
    CR, SP and NBSP. *)
Definition is_space (c : ascii) : bool :=
  let n := code c in
  ((9 <=? n) && (n <=? 13) || (n =? 32) || (n =? 160))%N.

(** [String.prototype.trim] *)
Fixpoint trimStart (s : string) : string :=
  match s with
  | EmptyString => EmptyString
  | String c r => if is_space c then trimStart r else s
  end.

Fixpoint trimEnd (s : string) : string :=
  match s with
  | EmptyString => EmptyString
  | String c r =>
      match trimEnd r with
      | EmptyString => if is_space c then EmptyString else String c EmptyString
      | r' => String c r'
      end
  end.

Definition trim (s : string) : string := trimEnd (trimStart s).

(** [String.prototype.toLowerCase]: A-Z, and the upper-case letters of the
    Latin-1 block (all of 192..222 but the multiplication sign 215), move
    up by 32. *)
Definition lower_char (c : ascii) : ascii :=
  let n := code c in
  if ((65 <=? n) && (n <=? 90)
      || (192 <=? n) && (n <=? 222) && negb (n =? 215))%N
  then ascii_of_N (n + 32) else c.

Fixpoint toLowerCase (s : string) : string :=
  match s with
  | EmptyString => EmptyString
  | String c r => String (lower_char c) (toLowerCase r)
  end.

(** [Array.prototype.includes] on an array of strings, for a string *)
Definition includes (l : list string) (s : string) : bool :=
  existsb (String.eqb s) l.

(** *** Conversions *)

(** [Number::toString] *)
Definition number_to_string (n : Number) : string :=
  match n with
  | NaN => "NaN"
  | Int z => DecimalString.NilZero.string_of_int (Z.to_int z)
  | Other shown => shown
  end.

(** Does a parsed JSON object carry an own property of this name? *)
Definition has_own (props : list (string * Val)) (k : string) : bool :=
  existsb (fun kv => String.eqb (fst kv) k) props.

(** [String(v)].  [None] stands for the TypeError that the conversion
    throws: an object whose own [toString] entry shadows
    [Object.prototype.toString] has no callable [toString] (a JSON value
    is never a function) and its [valueOf] yields no primitive.  An array
    joins the conversions of its elements with commas, [null] and
    [undefined] elements giving the empty string. *)
Fixpoint to_string (v : Val) : option string :=
  match v with
  | VUndefined => Some "undefined"
  | VNull => Some "null"
  | VBool b => Some (if b then "true" else "false")
  | VNum n => Some (number_to_string n)
  | VStr s => Some s
  | VArr elems =>
      let elem (e : Val) : option string :=
        match e with
        | VUndefined | VNull => Some ""
        | _ => to_string e
        end in
      (fix join (l : list Val) : option string :=
         match l with
         | [] => Some ""
         | [e] => elem e
         | e :: r =>
             match elem e, join r with
             | Some s, Some t => Some (s ++ "," ++ t)
             | _, _ => None
             end
         end) elems
  | VObj props =>
      if has_own props "toString" then None else Some "[object Object]"
  end.

(** Truthiness of a string, and [ToBoolean] on values: [!!v] *)
Definition nonempty (s : string) : bool :=
  match s with EmptyString => false | _ => true end.

Definition truthy (v : Val) : bool :=
  match v with
  | VUndefined | VNull => false
  | VBool b => b
  | VNum NaN => false
  | VNum (Int z) => negb (z =? 0)%Z
  | VNum (Other _) => true
  | VStr s => nonempty s
  | VArr _ | VObj _ => true
  end.

Definition is_undefined (v : Val) : bool :=
  match v with VUndefined => true | _ => false end.

(** [v === s] for a string [s]: no conversion, equal only as strings *)
Definition strict_eq_str (v : Val) (s : string) : bool :=
  match v with VStr s' => String.eqb s' s | _ => false end.

#[global] Arguments trim : simpl never.
#[global] Arguments includes : simpl never.
#[global] Arguments number_to_string : simpl never.

End Js.

Import Js.

(** An object is a finite map from property names to values; reading a
    property that is not there gives [undefined]. *)
Abbreviation Obj := (gmap string Val).

Definition get (o : Obj) (k : string) : Val := default VUndefined (o !! k).

(** ** Server/Models/Todo.js *)

Inductive SchemaType := TString | TBoolean.

Record SchemaField := {
  type : SchemaType;
  required : bool;
  default_value : option Val;
  enum : option (list string)
}.

(** The literal [['low','medium','high']], spelled three times in the
    sources. *)
Definition priorities : list string := ["low"; "medium"; "high"].

Definition TodoSchema : list (string * SchemaField) :=
  [ ("task", {| type := TString; required := true;
                default_value := None; enum := None |});
    ("completed", {| type := TBoolean; required := false;
                     default_value := Some (VBool false); enum := None |});
    ("priority", {| type := TString; required := false;
                    default_value := Some (VStr "medium");
                    enum := Some priorities |}) ].

Definition timestamps : bool := true.

(** ** The calls made on [TodoModel]

    mongoose is not part of the sources.  The handlers see it through five
    calls, each a promise that resolves with a value, and for the writes a
    new content of the collection, or rejects (lost connection, failed
    cast or validation).  [Db] is the content of the collection. *)

Inductive Promise (A : Type) :=
| Resolved (a : A)
| Rejected.

Arguments Resolved {A} a.
Arguments Rejected {A}.

Class Model (Db : Type) := {
  (** [TodoModel.find().lean()] *)
  model_find : Db -> Promise (list Obj);
  (** [TodoModel.create(fields)] *)
  model_create : Db -> Obj -> Promise (Obj * Db);
  (** [TodoModel.findById(id).lean()] *)
  model_findById : Db -> Val -> Promise (option Obj);
  (** [TodoModel.findByIdAndDelete(id)] *)
  model_findByIdAndDelete : Db -> string -> Promise (option Obj * Db);
  (** [TodoModel.findByIdAndUpdate(id, update, { new: true })] *)
  model_findByIdAndUpdate : Db -> string -> Obj -> Promise (option Obj * Db)
}.

(** ** Server/index.js *)

(** What [res.json] is given, and the status set before it (200 unless
    [res.status] was called). *)
Inductive Payload :=
| PTodos (todos : list Obj)
| PTodo (todo : Obj)
| PError (error : string)
| PSuccess
| PNothing.

Record Response := { status : nat; payload : Payload }.

Definition json (p : Payload) : Response := {| status := 200; payload := p |}.
Definition error (code : nat) (msg : string) : Response :=
  {| status := code; payload := PError msg |}.

(** The response of every [catch] block *)
Definition internal_error : Response := error 500 "Internal Server Error".

(** [const start = async () => ...]: the choice of [useDb], from
    [process.env.MONGO_URI] and from whether [mongoose.connect] resolved. *)
Definition start (mongoURI : option string) (connected : bool) : bool :=
  match mongoURI with
  | Some uri => if nonempty uri then connected else false
  | None => false
  end.

(** The test of [POST /add], line 50: [!task || !String(task).trim()].
    [None] when the conversion throws. *)
Definition blank_task (task : Val) : option bool :=
  if negb (truthy task) then Some true
  else s ← to_string task; Some (negb (nonempty (trim s))).

(** [incoming] and [pr] of [POST /add], lines 52 and 53 *)
Definition normalize_priority (priority : Val) : option string :=
  incoming ← (if is_undefined priority then Some None
              else s ← to_string priority; Some (Some (toLowerCase s)));
  Some match incoming with
       | Some p => if nonempty p && includes priorities p then p else "medium"
       | None => "medium"
       end.

(** [const newTodo = { _id: String(Date.now()), task: ..., priority: pr }] *)
Definition new_todo (now : Z) (text pr : string) : Obj :=
  {[ "_id" := VStr (number_to_string (Int now));
     "task" := VStr text;
     "priority" := VStr pr ]}.

(** [const update = {} ...] of [PATCH /update/:id], lines 95 to 101: the
    object of the fields to write.  [None] when a conversion throws. *)
Definition build_update (body : Obj) : option Obj :=
  let update0 : Obj := ∅ in
  update1 ← (if negb (is_undefined (get body "task"))
             then s ← to_string (get body "task");
                  Some (<["task" := VStr (trim s)]> update0)
             else Some update0);
  let update2 :=
    if negb (is_undefined (get body "completed"))
    then <["completed" := VBool (truthy (get body "completed"))]> update1
    else update1 in
  if negb (is_undefined (get body "priority"))
  then p ← toLowerCase <$> to_string (get body "priority");
       Some (if includes priorities p
             then <["priority" := VStr p]> update2 else update2)
  else Some update2.

(** The callback of [inMemoryTodos.filter] in [DELETE /delete/:id]:
    [t._id !== id && String(t._id) !== String(id)] *)
Definition keeps (id : string) (t : Obj) : option bool :=
  if negb (strict_eq_str (get t "_id") id)
  then s ← to_string (get t "_id"); Some (negb (String.eqb s id))
  else Some false.

Fixpoint filter_todos (id : string) (todos : list Obj) : option (list Obj) :=
  match todos with
  | [] => Some []
  | t :: rest =>
      k ← keeps id t;
      rest' ← filter_todos id rest;
      Some (if k : bool then t :: rest' else rest')
  end.

(** The todos that a request for [id] addresses, when every [_id] in the
    list is a string: there both callback tests come down to this one. *)
Definition stored_under (id : string) (t : Obj) : bool :=
  strict_eq_str (get t "_id") id.

(** The list that [PATCH /update/:id] leaves in memory, on such a list *)
Definition assigned (id : string) (update : Obj) (todos : list Obj)
    : list Obj :=
  map (fun t => if stored_under id t then update ∪ t else t) todos.

Definition has_string_id (t : Obj) : Prop :=
  exists s, t !! "_id" = Some (VStr s).

(** The callback test of [PATCH /update/:id]: [String(t._id) === String(id)] *)
Definition matches (id : string) (t : Obj) : option bool :=
  s ← to_string (get t "_id"); Some (String.eqb s id).

(** [inMemoryTodos.map(t => ...)] of [PATCH /update/:id], threading the
    variable [found] that the callback sets.  [Object.assign({}, t, update)]
    is the union that prefers [update]. *)
Fixpoint map_todos (id : string) (update : Obj) (found : bool)
    (todos : list Obj) : option (list Obj * bool) :=
  match todos with
  | [] => Some ([], found)
  | t :: rest =>
      m ← matches id t;
      '(rest', found') ← map_todos id update (if m : bool then true else found) rest;
      Some ((if m : bool then update ∪ t else t) :: rest', found')
  end.

(** [inMemoryTodos.find(t => String(t._id) === String(id))] *)
Fixpoint find_todo (id : string) (todos : list Obj) : option (option Obj) :=
  match todos with
  | [] => Some None
  | t :: rest =>
      m ← matches id t;
      if m : bool then Some (Some t) else find_todo id rest
  end.

Section Server.

Context {Db : Type} `{Model Db}.

(** The module-level state: [let inMemoryTodos = []], [let useDb = false],
    and the collection that [TodoModel] reads and writes. *)
Record Server := {
  useDb : bool;
  inMemoryTodos : list Obj;
  db : Db
}.

Definition set_todos (st : Server) (todos : list Obj) : Server :=
  {| useDb := useDb st; inMemoryTodos := todos; db := db st |}.

Definition set_db (st : Server) (d : Db) : Server :=
  {| useDb := useDb st; inMemoryTodos := inMemoryTodos st; db := d |}.

(** A handler body that threw lands in its [catch]: 500, and the state as
    it was. *)
Definition catch (st : Server) (r : option (Response * Server))
    : Response * Server :=
  default (internal_error, st) r.

(** [app.get('/get', ...)] *)
Definition get_todos (st : Server) : Response * Server :=
  if useDb st then
    match model_find (db st) with
    | Resolved todos => (json (PTodos todos), st)
    | Rejected => (internal_error, st)
    end
  else (json (PTodos (inMemoryTodos st)), st).

(** The [if (useDb)] branch of [POST /add], lines 54 to 61: create, then
    fetch again what was written. *)
Definition create_persistent (st : Server) (text pr : string)
    : Response * Server :=
  match model_create (db st)
          {[ "task" := VStr text; "priority" := VStr pr ]} with
  | Resolved (created, d) =>
      match model_findById d (get created "_id") with
      | Resolved (Some fetched) => (json (PTodo fetched), set_db st d)
      | Resolved None => (json (PTodo created), set_db st d)
      | Rejected => (internal_error, set_db st d)
      end
  | Rejected => (internal_error, st)
  end.

(** Lines 62 to 64; [now] is what [Date.now()] reads. *)
Definition create_ephemeral (st : Server) (now : Z) (text pr : string)
    : Response * Server :=
  let newTodo := new_todo now text pr in
  (json (PTodo newTodo), set_todos st (inMemoryTodos st ++ [newTodo])).

(** [app.post('/add', ...)] *)
Definition add (st : Server) (now : Z) (body : Obj) : Response * Server :=
  let task := get body "task" in
  let priority := get body "priority" in
  catch st (
    blank ← blank_task task;
    if blank : bool then Some (error 400 "task is required", st) else
    pr ← normalize_priority priority;
    text ← trim <$> to_string task;
    Some (if useDb st then create_persistent st text pr
          else create_ephemeral st now text pr)).

(** [app.delete('/delete/:id', ...)] *)
Definition delete_todo (st : Server) (id : string) : Response * Server :=
  if negb (nonempty id) then (error 400 "id required", st) else
  if useDb st then
    match model_findByIdAndDelete (db st) id with
    | Resolved (None, d) => (error 404 "Not found", set_db st d)
    | Resolved (Some removed, d) => (json PSuccess, set_db st d)
    | Rejected => (internal_error, st)
    end
  else
    catch st (
      let before := length (inMemoryTodos st) in
      todos ← filter_todos id (inMemoryTodos st);
      Some (if (length todos =? before)%nat
            then error 404 "Not found"
            else json PSuccess,
            set_todos st todos)).

(** [app.patch('/update/:id', ...)] *)
Definition update_todo (st : Server) (id : string) (body : Obj)
    : Response * Server :=
  catch st (
    update ← build_update body;
    if (size update =? 0)%nat then Some (error 400 "nothing to update", st) else
    if useDb st then
      match model_findByIdAndUpdate (db st) id update with
      | Resolved (None, d) => Some (error 404 "Not found", set_db st d)
      | Resolved (Some updated, d) => Some (json (PTodo updated), set_db st d)
      | Rejected => None
      end
    else
      '(todos, found) ← map_todos id update false (inMemoryTodos st);
      let st' := set_todos st todos in
      if negb found then Some (error 404 "Not found", st') else
      match find_todo id todos with
      | Some (Some todo) => Some (json (PTodo todo), st')
      | Some None => Some (json PNothing, st')
      | None => Some (internal_error, st')
      end).

(** ** Runs of the server *)

Inductive Request :=
| GetTodos
| Add (now : Z) (body : Obj)
| Delete (id : string)
| Update (id : string) (body : Obj).

Definition handle (st : Server) (req : Request) : Response * Server :=
  match req with
  | GetTodos => get_todos st
  | Add now body => add st now body
  | Delete id => delete_todo st id
  | Update id body => update_todo st id body
  end.

(** The state after a sequence of requests, and the responses given. *)
Fixpoint run (st : Server) (reqs : list Request) : list Response * Server :=
  match reqs with
  | [] => ([], st)
  | req :: rest =>
      let '(r, st') := handle st req in
      let '(rs, st'') := run st' rest in
      (r :: rs, st'')
  end.

(** The state when [start] has run: no todo in memory. *)
Definition initial (use : bool) (d : Db) : Server :=
  {| useDb := use; inMemoryTodos := []; db := d |}.

Inductive reachable : Server -> Prop :=
| reachable_initial use d : reachable (initial use d)
| reachable_step st req : reachable st -> reachable (snd (handle st req)).

End Server.

Arguments Server Db : clear implicits.

(** ** A collection to run the persistent branch on

    A stand-in for the MongoDB collection: the documents in insertion
    order, a counter that the identifiers are drawn from and a clock for
    the timestamps.  [create] checks the document against [TodoSchema] and
    fills in its defaults; an update sets the given fields without
    validation, as [findByIdAndUpdate] does when [runValidators] is not
    asked for.  An identifier given as a string is cast first: a string
    that is not 24 hexadecimal digits makes the call reject, as the
    CastError of mongoose does.  This collection never loses its
    connection. *)

Record Collection := {
  docs : list Obj;
  counter : N;
  clock : Z
}.

Definition hex_digit (k : N) : ascii :=
  match k with
  | 0 => "0" | 1 => "1" | 2 => "2" | 3 => "3" | 4 => "4" | 5 => "5"
  | 6 => "6" | 7 => "7" | 8 => "8" | 9 => "9" | 10 => "a" | 11 => "b"
  | 12 => "c" | 13 => "d" | 14 => "e" | _ => "f"
  end%N%char.

(** The last [width] hexadecimal digits of [n] *)
Fixpoint hex_digits (width : nat) (n : N) : string :=
  match width with
  | O => EmptyString
  | S w => hex_digits w (n / 16) ++ String (hex_digit (n mod 16)) EmptyString
  end.

(** The 24 hexadecimal digits of an ObjectId *)
Definition oid (n : N) : string := hex_digits 24 n.

#[global] Arguments oid : simpl never.

Definition is_hex_digit (c : ascii) : bool :=
  let n := code c in
  ((48 <=? n) && (n <=? 57) || (97 <=? n) && (n <=? 102)
   || (65 <=? n) && (n <=? 70))%N.

Fixpoint all_hex (s : string) : bool :=
  match s with
  | EmptyString => true
  | String c r => is_hex_digit c && all_hex r
  end.

(** The cast of a string to an ObjectId: its 24 digits in lower case, or
    [None] for the CastError. *)
Definition cast_id (id : string) : option string :=
  if (String.length id =? 24)%nat && all_hex id
  then Some (toLowerCase id) else None.

Definition apply_defaults (schema : list (string * SchemaField)) (fields : Obj)
    : Obj :=
  fold_left
    (fun doc '(k, f) =>
       match doc !! k, default_value f with
       | None, Some v => <[k := v]> doc
       | _, _ => doc
       end)
    schema fields.

Definition valid_field (fields : Obj) (kf : string * SchemaField) : bool :=
  let '(k, f) := kf in
  match fields !! k with
  | None => negb (required f)
  | Some (VStr s) =>
      (negb (required f) || nonempty s)
      && match enum f with Some allowed => includes allowed s | None => true end
  | Some (VBool _) => match type f with TBoolean => true | TString => false end
  | Some _ => false
  end.

Definition validate (schema : list (string * SchemaField)) (fields : Obj)
    : bool :=
  forallb (valid_field fields) schema.

Definition has_id (id : Val) (doc : Obj) : bool :=
  match id, get doc "_id" with
  | VStr a, VStr b => String.eqb a b
  | _, _ => false
  end.

Definition stamp (keys : list string) (now : Z) (doc : Obj) : Obj :=
  if timestamps
  then fold_left (fun d k => <[k := VNum (Int now)]> d) keys doc
  else doc.

Definition collection_create (c : Collection) (fields : Obj)
    : Promise (Obj * Collection) :=
  if validate TodoSchema fields then
    let doc :=
      stamp ["createdAt"; "updatedAt"] (clock c)
        (<["_id" := VStr (oid (counter c))]> (apply_defaults TodoSchema fields)) in
    Resolved (doc, {| docs := docs c ++ [doc];
                      counter := counter c + 1;
                      clock := clock c + 1 |})
  else Rejected.

Definition collection_findById (c : Collection) (id : Val)
    : Promise (option Obj) :=
  match id with
  | VStr s =>
      match cast_id s with
      | Some o => Resolved (List.find (has_id (VStr o)) (docs c))
      | None => Rejected
      end
  | _ => Resolved None
  end.

Fixpoint remove_first (id : Val) (l : list Obj) : list Obj :=
  match l with
  | [] => []
  | d :: rest => if has_id id d then rest else d :: remove_first id rest
  end.

Definition collection_findByIdAndDelete (c : Collection) (id : string)
    : Promise (option Obj * Collection) :=
  match cast_id id with
  | Some o =>
      Resolved (List.find (has_id (VStr o)) (docs c),
                {| docs := remove_first (VStr o) (docs c);
                   counter := counter c;
                   clock := clock c |})
  | None => Rejected
  end.

Fixpoint set_first (id : Val) (f : Obj -> Obj) (l : list Obj) : list Obj :=
  match l with
  | [] => []
  | d :: rest => if has_id id d then f d :: rest else d :: set_first id f rest
  end.

Definition collection_findByIdAndUpdate (c : Collection) (id : string)
    (update : Obj) : Promise (option Obj * Collection) :=
  let write (d : Obj) : Obj := stamp ["updatedAt"] (clock c) (update ∪ d) in
  match cast_id id with
  | Some o =>
      Resolved (write <$> List.find (has_id (VStr o)) (docs c),
                {| docs := set_first (VStr o) write (docs c);
                   counter := counter c;
                   clock := clock c + 1 |})
  | None => Rejected
  end.

#[export] Instance collection_model : Model Collection := {
  model_find c := Resolved (docs c);
  model_create := collection_create;
  model_findById := collection_findById;
  model_findByIdAndDelete := collection_findByIdAndDelete;
  model_findByIdAndUpdate := collection_findByIdAndUpdate
}.

Definition empty_collection : Collection :=
  {| docs := []; counter := 1; clock := 0 |}.

(** The two servers that [start] can leave: on memory, on the collection. *)
Definition ephemeral : Server Collection := initial false empty_collection.
Definition persistent : Server Collection := initial true empty_collection.


(** The identifier that the next [create] draws is carried by no document
    yet. *)
Definition fresh (c : Collection) : Prop :=
  Forall (fun d => get d "_id" <> VStr (oid (counter c))) (docs c).

(** Some requests and the states they lead to *)

Definition buy_milk : Obj := {[ "task" := VStr "Buy milk" ]}.

Definition walk : Obj :=
  {[ "task" := VStr " Walk the dog "; "priority" := VStr "HIGH" ]}.

Definition one_todo : Server Collection :=
  snd (run ephemeral [Add 1000 buy_milk]).

Definition two_todos : Server Collection :=
  snd (run ephemeral [Add 1000 buy_milk; Add 2000 walk]).

Definition one_document : Server Collection :=
  snd (run persistent [Add 1000 buy_milk]).

(** ** Requests and records of the usual kind *)

(** A value that [String] converts without throwing *)
Definition convertible (v : Val) : bool :=
  match to_string v with Some _ => true | None => false end.

(** A request whose task and priority, where the handler converts them, are
    convertible. *)
Definition plain (req : Request) : bool :=
  match req with
  | Add _ body | Update _ body =>
      convertible (get body "task") && convertible (get body "priority")
  | GetTodos | Delete _ => true
  end.

(** The shape of a record that the in-memory branch writes: the [_id] a
    clock reading in decimal, the task a trimmed string, the priority one
    of the three, [completed] a boolean when it is there, and nothing
    else. *)
Definition well_formed (t : Obj) : Prop :=
  (exists n, t !! "_id" = Some (VStr (number_to_string (Int n))))
  /\ (exists text, t !! "task" = Some (VStr text) /\ trim text = text)
  /\ (exists pr, t !! "priority" = Some (VStr pr) /\ pr ∈ priorities)
  /\ (t !! "completed" = None \/ exists b, t !! "completed" = Some (VBool b))
  /\ forall k, k <> "_id" -> k <> "task" -> k <> "priority" ->
               k <> "completed" -> t !! k = None.

(** The [_id] is a clock reading, no later than [bound], in decimal. *)
Definition from_clock (bound : Z) (t : Obj) : Prop :=
  exists n, (n <= bound)%Z /\ t !! "_id" = Some (VStr (number_to_string (Int n))).

(** The [_id]s of a list of todos, in order *)
Definition ids (todos : list Obj) : list Val :=
  map (fun t => get t "_id") todos.

(** Every create of the sequence reads a clock value above the one read by
    the create before it, and above [last]. *)
Fixpoint clocks_increase (last : Z) (reqs : list Request) : bool :=
  match reqs with
  | [] => true
  | Add now _ :: rest => (last <? now)%Z && clocks_increase now rest
  | _ :: rest => clocks_increase last rest
  end.

(** The task of a record is a string that is not empty. *)
Definition has_text (t : Obj) : Prop :=
  exists text, t !! "task" = Some (VStr text) /\ nonempty text = true.

(** A request that is no update, or an update whose task is absent or
    keeps some text once trimmed. *)
Definition keeps_text (req : Request) : bool :=
  match req with
  | Update _ body =>
      is_undefined (get body "task")
      || match to_string (get body "task") with
         | Some s => nonempty (trim s)
         | None => true
         end
  | GetTodos | Add _ _ | Delete _ => true
  end.

(** ** The end of [start]: which server listens, lines 128 and 140 to 160 *)

(** [fs.existsSync] and [fs.readFileSync]; a read that throws is [None]. *)
Record FileSystem := {
  existsSync : string -> bool;
  readFileSync : string -> option string
}.

(** [https.createServer({ key, cert }, app).listen(port, ...)] went through,
    or [app.listen(port, ...)] was called. *)
Inductive Listening :=
| HttpsListen (key cert : string) (port : Val)
| AppListen (port : Val).

(** [const port = process.env.PORT || 3001] *)
Definition port_of (PORT : option string) : Val :=
  match PORT with
  | Some p => if nonempty p then VStr p else VNum (Int 3001)
  | None => VNum (Int 3001)
  end.

(** [serves key cert port] tells whether creating the HTTPS server and
    making it listen returns without throwing. *)
Definition listen (USE_HTTPS PORT : option string) (fs : FileSystem)
    (serves : string -> string -> Val -> bool) (keyPath certPath : string)
    : Listening :=
  let port := port_of PORT in
  if match USE_HTTPS with Some v => String.eqb v "true" | None => false end
     || existsSync fs keyPath && existsSync fs certPath
  then
    default (AppListen port)
      (key ← readFileSync fs keyPath;
       cert ← readFileSync fs certPath;
       if serves key cert port then Some (HttpsListen key cert port) else None)
  else AppListen port.

(** A file system that holds the listed files and nothing else *)
Definition files (contents : list (string * string)) : FileSystem :=
  {| existsSync p := existsb (fun kv => String.eqb (fst kv) p) contents;
     readFileSync p :=
       snd <$> List.find (fun kv => String.eqb (fst kv) p) contents |}.

(** * Properties *)

(** ** Conversions and the update object *)

Example trim_ex : trim "  Buy milk " = "Buy milk".
Proof. reflexivity. Qed.

Example lower_ex : toLowerCase "HIGH" = "high".
Proof. reflexivity. Qed.

Example to_string_array :
  to_string (VArr [VStr "a"; VNull; VNum (Int 3)]) = Some "a,,3".
Proof. reflexivity. Qed.

(** An object that carries its own [toString] entry has no string form. *)
Example to_string_throws :
  to_string (VObj [("toString", VNum (Int 1))]) = None.
Proof. reflexivity. Qed.

Lemma get_None (o : Obj) (k : string) : o !! k = None -> get o k = VUndefined.
Proof. unfold get. by intros ->. Qed.

Lemma is_undefined_true (v : Val) : is_undefined v = true <-> v = VUndefined.
Proof. destruct v; simpl; split; congruence. Qed.

Lemma is_undefined_false (v : Val) : is_undefined v = false <-> v <> VUndefined.
Proof. destruct v; simpl; split; congruence. Qed.

(** Every property of the update object, read off the body. *)
Lemma build_update_lookup (body u : Obj) :
  build_update body = Some u ->
  u !! "task" =
    (if is_undefined (get body "task") then None
     else VStr ∘ trim <$> to_string (get body "task"))
  /\ u !! "completed" =
    (if is_undefined (get body "completed") then None
     else Some (VBool (truthy (get body "completed"))))
  /\ u !! "priority" =
    (if is_undefined (get body "priority") then None
     else p ← toLowerCase <$> to_string (get body "priority");
          if includes priorities p then Some (VStr p) else None)
  /\ forall k, k <> "task" -> k <> "completed" -> k <> "priority" ->
               u !! k = None.
Proof.
  unfold build_update.
  destruct (is_undefined (get body "task")),
    (is_undefined (get body "completed")),
    (is_undefined (get body "priority")); simpl;
    repeat match goal with
      | |- context [to_string ?v] => destruct (to_string v); simpl
      | |- context [includes ?l ?p] => destruct (includes l p) eqn:?; simpl
      end;
    intros [= <-]; repeat split; intros; by simplify_map_eq.
Qed.

(** The update object never names [_id]. *)
Lemma build_update_id (body u : Obj) :
  build_update body = Some u -> u !! "_id" = None.
Proof. intros Hu. by apply (build_update_lookup body u Hu). Qed.

Lemma normalize_priority_undefined :
  normalize_priority VUndefined = Some "medium".
Proof. reflexivity. Qed.

Lemma normalize_priority_defined (priority : Val) (s : string) :
  priority <> VUndefined ->
  to_string priority = Some s ->
  normalize_priority priority =
    Some (if includes priorities (toLowerCase s) then toLowerCase s
          else "medium").
Proof.
  intros Hp Hs. unfold normalize_priority.
  apply is_undefined_false in Hp. rewrite Hp, Hs. simpl.
  destruct (includes priorities (toLowerCase s)) eqn:Hin.
  - by destruct (toLowerCase s).
  - by rewrite andb_false_r.
Qed.

Lemma includes_elem_of (l : list string) (s : string) :
  includes l s = true <-> s ∈ l.
Proof.
  unfold includes. rewrite existsb_exists. split.
  - intros (x & Hx%list_elem_of_In & ->%String.eqb_eq). done.
  - intros Hs. exists s. split; [by apply list_elem_of_In | apply String.eqb_refl].
Qed.

(** Whatever comes in, the priority that a create writes is one of the
    three. *)
Lemma normalize_priority_allowed (priority : Val) (pr : string) :
  normalize_priority priority = Some pr -> pr ∈ priorities.
Proof.
  unfold normalize_priority.
  destruct (is_undefined priority); simpl.
  - intros [= <-]. apply includes_elem_of. reflexivity.
  - destruct (to_string priority); simpl; [| done].
    intros [= <-].
    destruct (nonempty _ && includes _ _) eqn:Hc.
    + apply includes_elem_of. by apply andb_true_iff in Hc as [_ ?].
    + apply includes_elem_of. reflexivity.
Qed.

Section Handlers.

Context {Db : Type} `{Model Db}.

Implicit Types (st : Server Db) (body update : Obj) (id : string).

Lemma set_todos_same st : set_todos st (inMemoryTodos st) = st.
Proof. by destruct st. Qed.

(** The test of line 50 on a task that has text *)
Lemma blank_task_false (task : Val) (text : string) :
  truthy task = true -> to_string task = Some text -> trim text <> "" ->
  blank_task task = Some false.
Proof.
  intros Ht Hs Hne. unfold blank_task. rewrite Ht, Hs. simpl.
  by destruct (trim text).
Qed.

(** C7: a create whose task is absent (or any other falsy value), or
    blank once trimmed, fails with 400 and leaves the state as it was; the
    backend plays no part. *)
Theorem add_blank_task_rejected st (now : Z) body :
  get body "task" = VUndefined
  \/ truthy (get body "task") = false
  \/ (exists s, to_string (get body "task") = Some s /\ trim s = "") ->
  add st now body = (error 400 "task is required", st).
Proof.
  intros [Hu | [Hfalsy | (s & Hs & Hblank)]]; unfold add, blank_task.
  - by rewrite Hu.
  - by rewrite Hfalsy.
  - destruct (truthy (get body "task")); simpl; [| done].
    by rewrite Hs; simpl; rewrite Hblank.
Qed.

(** An update object left empty stops the handler at line 103. *)
Lemma update_empty st id body :
  get body "task" = VUndefined ->
  get body "completed" = VUndefined ->
  get body "priority" = VUndefined \/
  (exists s, to_string (get body "priority") = Some s
             /\ includes priorities (toLowerCase s) = false) ->
  build_update body = Some ∅
  /\ update_todo st id body = (error 400 "nothing to update", st).
Proof.
  intros Ht Hc Hp. unfold update_todo, build_update. rewrite Ht, Hc. simpl.
  destruct Hp as [-> | (s & Hs & Hbad)]; [done |].
  destruct (is_undefined (get body "priority")); [done |].
  by rewrite Hs; simpl; rewrite Hbad.
Qed.

(** C8: an update in which no field is recognised (no task, no completed,
    and a priority that is absent or not one of the three) fails with 400
    and leaves the state as it was, on either backend. *)
Theorem update_nothing_rejected st id body :
  get body "task" = VUndefined ->
  get body "completed" = VUndefined ->
  get body "priority" = VUndefined \/
  (exists s, to_string (get body "priority") = Some s
             /\ includes priorities (toLowerCase s) = false) ->
  update_todo st id body = (error 400 "nothing to update", st).
Proof. intros Ht Hc Hp. by apply update_empty. Qed.

(** What a create leaves in memory: nothing new, or one more todo whose
    task is trimmed and has text and whose priority is one of the three. *)
Lemma add_in_memory st (now : Z) body :
  useDb st = false ->
  snd (add st now body) = st
  \/ exists text pr,
       trim text <> "" /\ pr ∈ priorities
       /\ add st now body =
            (json (PTodo (new_todo now (trim text) pr)),
             set_todos st (inMemoryTodos st ++ [new_todo now (trim text) pr])).
Proof.
  intros Hmem. unfold add, catch, blank_task.
  destruct (truthy (get body "task")); simpl; [| by left].
  destruct (to_string (get body "task")) as [text |] eqn:Hs; simpl;
    [| by left].
  destruct (nonempty (trim text)) eqn:Hne; simpl; [| by left].
  destruct (normalize_priority _) as [pr |] eqn:Hpr; simpl; [| by left].
  rewrite Hmem. right. exists text, pr. repeat split.
  - by destruct (trim text).
  - by apply (normalize_priority_allowed (get body "priority")).
Qed.

(** ** The in-memory list *)

Lemma keeps_string_id id (t : Obj) :
  has_string_id t -> keeps id t = Some (negb (stored_under id t)).
Proof.
  intros [s Hs]. unfold keeps, stored_under, get. rewrite Hs. simpl.
  by destruct (String.eqb s id).
Qed.

Lemma matches_string_id id (t : Obj) :
  has_string_id t -> matches id t = Some (stored_under id t).
Proof.
  intros [s Hs]. unfold matches, stored_under, get. by rewrite Hs.
Qed.

Lemma filter_todos_string_ids id (todos : list Obj) :
  Forall has_string_id todos ->
  filter_todos id todos =
    Some (List.filter (fun t => negb (stored_under id t)) todos).
Proof.
  induction 1 as [| t todos Ht _ IH]; [done |].
  simpl. rewrite keeps_string_id by done. simpl. rewrite IH. simpl.
  by destruct (stored_under id t).
Qed.

Lemma map_todos_string_ids id update (found : bool) (todos : list Obj) :
  Forall has_string_id todos ->
  map_todos id update found todos =
    Some (map (fun t => if stored_under id t then update ∪ t else t) todos,
          found || existsb (stored_under id) todos).
Proof.
  intros Hall. revert found.
  induction Hall as [| t todos Ht _ IH]; intros found; simpl.
  - by rewrite orb_false_r.
  - rewrite matches_string_id by done. simpl. rewrite IH. simpl.
    destruct (stored_under id t), found; simpl; by rewrite ?orb_true_r.
Qed.

Lemma find_todo_string_ids id (todos : list Obj) :
  Forall has_string_id todos ->
  find_todo id todos = Some (List.find (stored_under id) todos).
Proof.
  induction 1 as [| t todos Ht _ IH]; [done |].
  simpl. rewrite matches_string_id by done. simpl.
  by destruct (stored_under id t).
Qed.

(** [Object.assign({}, t, update)] keeps every property that [update]
    does not name. *)
Lemma assign_lookup_other update (t : Obj) (k : string) :
  update !! k = None -> (update ∪ t) !! k = t !! k.
Proof. intros Hk. by apply lookup_union_r. Qed.

Lemma assign_stored_under id update (t : Obj) :
  update !! "_id" = None ->
  stored_under id (update ∪ t) = stored_under id t.
Proof.
  intros Hk. unfold stored_under, get. by rewrite assign_lookup_other.
Qed.

Lemma assign_has_string_id update (t : Obj) :
  update !! "_id" = None -> has_string_id t -> has_string_id (update ∪ t).
Proof.
  intros Hk [s Hs]. exists s. by rewrite assign_lookup_other.
Qed.

Lemma filter_all (A : Type) (f : A -> bool) (l : list A) :
  length (List.filter f l) = length l -> List.filter f l = l.
Proof.
  induction l as [| a l IH]; [done |]. simpl.
  destruct (f a); simpl; intros Hlen.
  - f_equal. apply IH. lia.
  - pose proof (List.filter_length_le f l). lia.
Qed.

Lemma filter_none (A : Type) (f : A -> bool) (l : list A) :
  Forall (fun a => f a = true) l -> List.filter f l = l.
Proof. induction 1 as [| a l Ha _ IH]; simpl; [done |]. by rewrite Ha, IH. Qed.

Lemma map_none id update (todos : list Obj) :
  existsb (stored_under id) todos = false ->
  map (fun t => if stored_under id t then update ∪ t else t) todos = todos.
Proof.
  induction todos as [| t todos IH]; [done |]. simpl.
  intros [Ht Hrest]%orb_false_iff. by rewrite Ht, IH.
Qed.

Lemma find_assigned id update (todos : list Obj) :
  update !! "_id" = None ->
  List.find (stored_under id)
    (map (fun t => if stored_under id t then update ∪ t else t) todos)
  = (fun t => update ∪ t) <$> List.find (stored_under id) todos.
Proof.
  intros Hk. induction todos as [| t todos IH]; [done |]. simpl.
  destruct (stored_under id t) eqn:Ht.
  - by rewrite assign_stored_under, Ht.
  - by rewrite Ht.
Qed.

Lemma existsb_find id (todos : list Obj) :
  existsb (stored_under id) todos = true ->
  exists t, List.find (stored_under id) todos = Some t.
Proof.
  induction todos as [| t todos IH]; [done |]. simpl.
  destruct (stored_under id t); eauto.
Qed.

Lemma find_existsb id (todos : list Obj) :
  existsb (stored_under id) todos = false ->
  List.find (stored_under id) todos = None.
Proof.
  induction todos as [| t todos IH]; [done |]. simpl.
  by destruct (stored_under id t).
Qed.

(** What [DELETE /delete/:id] does on the in-memory list *)
Lemma delete_in_memory st id :
  useDb st = false -> nonempty id = true ->
  Forall has_string_id (inMemoryTodos st) ->
  let kept :=
    List.filter (fun t => negb (stored_under id t)) (inMemoryTodos st) in
  delete_todo st id =
    (if (length kept =? length (inMemoryTodos st))%nat
     then error 404 "Not found" else json PSuccess,
     set_todos st kept).
Proof.
  intros Hmem Hid Hall kept. unfold delete_todo.
  by rewrite Hid, Hmem, filter_todos_string_ids.
Qed.

(** What [PATCH /update/:id] does on the in-memory list, once the update
    object is built and holds a field *)
Lemma update_in_memory st id body update :
  useDb st = false ->
  Forall has_string_id (inMemoryTodos st) ->
  build_update body = Some update -> size update <> 0 ->
  update_todo st id body =
    match List.find (stored_under id) (inMemoryTodos st) with
    | Some t =>
        (json (PTodo (update ∪ t)),
         set_todos st
           (map (fun t => if stored_under id t then update ∪ t else t)
              (inMemoryTodos st)))
    | None => (error 404 "Not found", st)
    end.
Proof.
  intros Hmem Hall Hu Hsize. unfold update_todo.
  rewrite Hu. simpl.
  destruct (Nat.eqb_spec (size update) 0) as [| _]; [done |].
  rewrite Hmem, map_todos_string_ids by done. simpl.
  destruct (existsb (stored_under id) (inMemoryTodos st)) eqn:Hex; simpl.
  - rewrite find_todo_string_ids.
    + rewrite find_assigned by eauto using build_update_id.
      destruct (existsb_find _ _ Hex) as [t ->]. done.
    + apply Forall_map. eapply Forall_impl; [done |]. intros t Ht. simpl.
      destruct (stored_under id t);
        eauto using assign_has_string_id, build_update_id.
  - by rewrite find_existsb, map_none, set_todos_same.
Qed.

(** ** What every reachable state satisfies *)

Lemma Forall_filter_list (A : Type) (P : A -> Prop) (f : A -> bool)
    (l : list A) :
  Forall P l -> Forall P (List.filter f l).
Proof.
  induction 1 as [| a l Ha _ IH]; simpl; [done |].
  destruct (f a); auto.
Qed.

Lemma new_todo_has_string_id (now : Z) (text pr : string) :
  has_string_id (new_todo now text pr).
Proof. eexists. unfold new_todo. apply lookup_insert_eq. Qed.

Lemma handle_string_ids st (req : Request) :
  Forall has_string_id (inMemoryTodos st) ->
  Forall has_string_id (inMemoryTodos (snd (handle st req))).
Proof.
  intros Hall. destruct req as [| now body | id | id body]; simpl.
  - unfold get_todos.
    destruct (useDb st); [destruct (model_find (db st)) |]; done.
  - unfold add, catch.
    destruct (blank_task _) as [[] |]; simpl; try done.
    destruct (normalize_priority _); simpl; try done.
    destruct (to_string _); simpl; try done.
    destruct (useDb st).
    + unfold create_persistent.
      destruct (model_create _ _) as [[created d] |]; [| done].
      destruct (model_findById _ _) as [[] |]; done.
    + simpl. apply Forall_app. split; [done |].
      constructor; [apply new_todo_has_string_id | constructor].
  - unfold delete_todo.
    destruct (nonempty id); simpl; [| done].
    destruct (useDb st).
    + destruct (model_findByIdAndDelete _ _) as [[[] d] |]; done.
    + rewrite filter_todos_string_ids by done. simpl.
      by apply Forall_filter_list.
  - unfold update_todo, catch.
    destruct (build_update body) as [update |] eqn:Hu; simpl; [| done].
    destruct (size update =? 0)%nat; simpl; [done |].
    destruct (useDb st).
    + destruct (model_findByIdAndUpdate _ _ _) as [[[] d] |]; done.
    + rewrite map_todos_string_ids by done. simpl.
      assert (Forall has_string_id
                (map (fun t => if stored_under id t then update ∪ t else t)
                   (inMemoryTodos st))) as Hall'.
      { apply Forall_map. eapply Forall_impl; [done |]. intros t Ht. simpl.
        destruct (stored_under id t);
          eauto using assign_has_string_id, build_update_id. }
      destruct (existsb _ _); simpl; [| done].
      by destruct (find_todo _ _) as [[] |].
Qed.

(** Every [_id] in the in-memory list is a string. *)
Lemma reachable_string_ids st :
  reachable st -> Forall has_string_id (inMemoryTodos st).
Proof.
  induction 1 as [use d | st req _ IH]; [constructor |].
  by apply handle_string_ids.
Qed.

Lemma reachable_run st (reqs : list Request) :
  reachable st -> reachable (snd (run st reqs)).
Proof.
  revert st. induction reqs as [| req reqs IH]; intros st Hst; [done |].
  simpl. pose proof (reachable_step st req Hst) as Hstep.
  destruct (handle st req) as [r st1]. specialize (IH st1 Hstep).
  by destruct (run st1 reqs).
Qed.

(** ** Identifiers that are not stored *)

Lemma stored_under_false id (t : Obj) :
  get t "_id" <> VStr id -> stored_under id t = false.
Proof.
  unfold stored_under. destruct (get t "_id") as [| | | | s | |]; try done.
  simpl. intros Hne. apply String.eqb_neq. congruence.
Qed.

Lemma absent_existsb id (todos : list Obj) :
  Forall (fun t => get t "_id" <> VStr id) todos ->
  existsb (stored_under id) todos = false.
Proof.
  induction 1 as [| t todos Ht _ IH]; [done |]. simpl.
  by rewrite stored_under_false, IH.
Qed.

Lemma absent_kept id (todos : list Obj) :
  existsb (stored_under id) todos = false ->
  List.filter (fun t => negb (stored_under id t)) todos = todos.
Proof.
  induction todos as [| t todos IH]; [done |]. simpl.
  intros [-> Hrest]%orb_false_iff. simpl. by rewrite IH.
Qed.

Lemma kept_absent id (todos : list Obj) :
  existsb (stored_under id)
    (List.filter (fun t => negb (stored_under id t)) todos) = false.
Proof.
  induction todos as [| t todos IH]; [done |]. simpl.
  destruct (stored_under id t) eqn:Ht; simpl; [done |]. by rewrite Ht.
Qed.

Lemma delete_absent st id :
  useDb st = false -> nonempty id = true ->
  Forall has_string_id (inMemoryTodos st) ->
  existsb (stored_under id) (inMemoryTodos st) = false ->
  delete_todo st id = (error 404 "Not found", st).
Proof.
  intros Hmem Hid Hall Habs.
  rewrite (delete_in_memory st id Hmem Hid Hall). simpl.
  by rewrite absent_kept, Nat.eqb_refl, set_todos_same.
Qed.

(** Where an id that is not stored is answered 404: on the in-memory
    backend, a delete or an update (with a field to write) of an id that
    no stored todo carries answers 404 and changes nothing, and a delete
    that succeeded is answered 404 when repeated; on the persistent
    backend the handlers answer 404 whenever the call resolves with no
    document. *)
Theorem missing_id_not_found st id :
  reachable st -> nonempty id = true ->
  (useDb st = false ->
   Forall (fun t => get t "_id" <> VStr id) (inMemoryTodos st) ->
   delete_todo st id = (error 404 "Not found", st)
   /\ forall body update,
        build_update body = Some update -> size update <> 0 ->
        update_todo st id body = (error 404 "Not found", st))
  /\ (useDb st = false ->
      status (fst (delete_todo st id)) = 200 ->
      delete_todo (snd (delete_todo st id)) id =
        (error 404 "Not found", snd (delete_todo st id)))
  /\ (useDb st = true ->
      (forall d, model_findByIdAndDelete (db st) id = Resolved (None, d) ->
                 delete_todo st id = (error 404 "Not found", set_db st d))
      /\ forall body update d,
           build_update body = Some update -> size update <> 0 ->
           model_findByIdAndUpdate (db st) id update = Resolved (None, d) ->
           update_todo st id body = (error 404 "Not found", set_db st d)).
Proof.
  intros Hreach Hid.
  pose proof (reachable_string_ids st Hreach) as Hall.
  split; [| split].
  - intros Hmem Habs%absent_existsb. split.
    + by apply delete_absent.
    + intros body update Hu Hsize.
      rewrite (update_in_memory st id body update) by done.
      by rewrite find_existsb.
  - intros Hmem _. rewrite (delete_in_memory st id Hmem Hid Hall). simpl.
    apply delete_absent; simpl; try done.
    + by apply Forall_filter_list.
    + apply kept_absent.
  - intros Hdb. split.
    + intros d Hd. unfold delete_todo. by rewrite Hid, Hdb, Hd.
    + intros body update d Hu Hsize Hd. unfold update_todo.
      rewrite Hu. simpl.
      destruct (Nat.eqb_spec (size update) 0) as [| _]; [done |].
      by rewrite Hdb, Hd.
Qed.

(** ** Updates that succeed *)

Lemma update_success st id body (r : Response) (st' : Server Db) :
  reachable st -> useDb st = false ->
  update_todo st id body = (r, st') -> status r = 200 ->
  exists update t,
    build_update body = Some update /\ size update <> 0
    /\ List.find (stored_under id) (inMemoryTodos st) = Some t
    /\ r = json (PTodo (update ∪ t))
    /\ st' = set_todos st (assigned id update (inMemoryTodos st)).
Proof.
  intros Hall%reachable_string_ids Hmem Hrun Hok.
  destruct (build_update body) as [update |] eqn:Hu.
  - destruct (Nat.eqb_spec (size update) 0) as [Hz | Hnz].
    + unfold update_todo in Hrun. rewrite Hu in Hrun. simpl in Hrun.
      rewrite Hz in Hrun. simpl in Hrun. by simplify_eq.
    + rewrite (update_in_memory st id body update) in Hrun by done.
      destruct (List.find _ _) as [t |]; simplify_eq.
      by exists update, t.
  - unfold update_todo in Hrun. rewrite Hu in Hrun. simpl in Hrun.
    by simplify_eq.
Qed.

Lemma assigned_frame id update (todos : list Obj) :
  update !! "_id" = None ->
  Forall2
    (fun t t' =>
       get t' "_id" = get t "_id"
       /\ (get t "_id" <> VStr id -> t' = t)
       /\ forall k, update !! k = None -> t' !! k = t !! k)
    todos (assigned id update todos).
Proof.
  intros Hid. induction todos as [| t todos IH]; constructor; [| done].
  destruct (stored_under id t) eqn:Ht; [| done].
  split; [| split].
  - unfold get. by rewrite assign_lookup_other.
  - intros Hne%(stored_under_false id). congruence.
  - intros k Hk. by apply assign_lookup_other.
Qed.

(** C9: an update that succeeds on the in-memory list leaves the list in
    its order; a todo stored under another id is the same afterwards; the
    [_id] of every todo is the same; and a property that the update object
    does not name, which is every property but task, completed and
    priority, keeps its value. *)
Theorem update_changes_only_addressed st id body (r : Response)
    (st' : Server Db) :
  reachable st -> useDb st = false ->
  update_todo st id body = (r, st') -> status r = 200 ->
  exists update,
    build_update body = Some update
    /\ (forall k, k <> "task" -> k <> "completed" -> k <> "priority" ->
                  update !! k = None)
    /\ useDb st' = useDb st /\ db st' = db st
    /\ Forall2
         (fun t t' =>
            get t' "_id" = get t "_id"
            /\ (get t "_id" <> VStr id -> t' = t)
            /\ forall k, update !! k = None -> t' !! k = t !! k)
         (inMemoryTodos st) (inMemoryTodos st').
Proof.
  intros Hreach Hmem Hrun Hok.
  destruct (update_success st id body r st' Hreach Hmem Hrun Hok)
    as (update & t & Hu & _ & _ & _ & ->).
  exists update. repeat split; try done.
  - by apply (build_update_lookup body update Hu).
  - apply assigned_frame. by apply (build_update_id body).
Qed.


(** C1, as the code has it: a priority that is not one of the three is
    left out of the update object.  An update that brings nothing else is
    then rejected with 400 and changes nothing, on either backend.  When
    the body also has a task or a completed field and the id is stored in
    memory, the update succeeds and every priority in the list, and the one
    in the record returned, is the one stored before. *)
Theorem update_invalid_priority st id body (s : string) :
  get body "priority" <> VUndefined ->
  to_string (get body "priority") = Some s ->
  includes priorities (toLowerCase s) = false ->
  (forall update, build_update body = Some update ->
                  update !! "priority" = None)
  /\ (get body "task" = VUndefined -> get body "completed" = VUndefined ->
      update_todo st id body = (error 400 "nothing to update", st))
  /\ (forall update t,
        reachable st -> useDb st = false ->
        build_update body = Some update ->
        get body "task" <> VUndefined \/ get body "completed" <> VUndefined ->
        List.find (stored_under id) (inMemoryTodos st) = Some t ->
        exists st',
          update_todo st id body = (json (PTodo (update ∪ t)), st')
          /\ (update ∪ t) !! "priority" = t !! "priority"
          /\ Forall2 (fun a b => b !! "priority" = a !! "priority")
               (inMemoryTodos st) (inMemoryTodos st')).
Proof.
  intros Hp Hs Hbad.
  assert (forall update, build_update body = Some update ->
                         update !! "priority" = None) as Hdrop.
  { intros update Hu.
    destruct (build_update_lookup body update Hu) as (_ & _ & Hpr & _).
    apply is_undefined_false in Hp.
    by rewrite Hp, Hs in Hpr; simpl in Hpr; rewrite Hbad in Hpr. }
  split; [done |]. split.
  - intros Ht Hc. apply update_empty; eauto.
  - intros update t Hall%reachable_string_ids Hmem Hu Hfield Hfind.
    assert (size update <> 0) as Hsize.
    { destruct (build_update_lookup body update Hu) as (Ht & Hc & _).
      apply map_size_ne_0_lookup.
      destruct Hfield as [Hf%is_undefined_false | Hf%is_undefined_false];
        rewrite Hf in *.
      - exists "task". rewrite Ht.
        unfold build_update in Hu. rewrite Hf in Hu. simpl in Hu.
        by destruct (to_string (get body "task")).
      - exists "completed". by rewrite Hc. }
    rewrite (update_in_memory st id body update), Hfind by done.
    eexists. split; [done |]. split.
    + by apply assign_lookup_other, Hdrop.
    + simpl. eapply Forall2_impl; [apply (assigned_frame id update) |].
      * by apply (build_update_id body).
      * intros a b (_ & _ & Hk). by apply Hk, Hdrop.
Qed.

End Handlers.

(** ** The collection *)

Lemma hex_digit_hex (k : N) : is_hex_digit (hex_digit k) = true.
Proof.
  destruct k as [| p]; [done |].
  do 5 (try (destruct p as [p | p |]; try reflexivity)).
Qed.

Lemma hex_digit_lower (k : N) : lower_char (hex_digit k) = hex_digit k.
Proof.
  destruct k as [| p]; [done |].
  do 5 (try (destruct p as [p | p |]; try reflexivity)).
Qed.

Lemma all_hex_app (a b : string) : all_hex (a ++ b) = all_hex a && all_hex b.
Proof.
  induction a as [| c a IH]; [done |]. simpl. by rewrite IH, andb_assoc.
Qed.

Lemma toLowerCase_app (a b : string) :
  toLowerCase (a ++ b) = toLowerCase a ++ toLowerCase b.
Proof. induction a as [| c a IH]; [done |]. simpl. by rewrite IH. Qed.

Lemma length_app_string (a b : string) :
  String.length (a ++ b) = String.length a + String.length b.
Proof. induction a as [| c a IH]; [done |]. simpl. by rewrite IH. Qed.

Lemma hex_digits_shape (width : nat) (n : N) :
  String.length (hex_digits width n) = width
  /\ all_hex (hex_digits width n) = true
  /\ toLowerCase (hex_digits width n) = hex_digits width n.
Proof.
  revert n. induction width as [| w IH]; intros n; [done |].
  destruct (IH (n / 16)%N) as (Hlen & Hhex & Hlow). simpl.
  rewrite length_app_string, all_hex_app, toLowerCase_app, Hlen, Hhex, Hlow.
  simpl. rewrite hex_digit_hex, hex_digit_lower. repeat split. lia.
Qed.

(** An identifier that the collection gave is cast to itself. *)
Lemma cast_oid (n : N) : cast_id (oid n) = Some (oid n).
Proof.
  unfold cast_id, oid.
  destruct (hex_digits_shape 24 n) as (Hlen & Hhex & Hlow).
  by rewrite Hlen, Hhex, Hlow.
Qed.

Lemma find_fresh (o : string) (old : list Obj) (doc : Obj) :
  Forall (fun d => get d "_id" <> VStr o) old ->
  get doc "_id" = VStr o ->
  List.find (has_id (VStr o)) (old ++ [doc]) = Some doc.
Proof.
  intros Hold Hdoc. induction Hold as [| d old Hd _ IH]; simpl.
  - unfold has_id. by rewrite Hdoc, String.eqb_refl.
  - unfold has_id at 1. destruct (get d "_id") as [| | | | s | |]; try done.
    destruct (String.eqb_spec o s) as [-> | _]; [congruence | exact IH].
Qed.

Lemma fields_lookups (text pr : string) :
  let fields : Obj := {[ "task" := VStr text; "priority" := VStr pr ]} in
  fields !! "task" = Some (VStr text)
  /\ fields !! "priority" = Some (VStr pr)
  /\ fields !! "completed" = None.
Proof. repeat split; by simplify_map_eq. Qed.

Lemma apply_defaults_fields (text pr : string) :
  apply_defaults TodoSchema {[ "task" := VStr text; "priority" := VStr pr ]}
  = <["completed" := VBool false]>
      {[ "task" := VStr text; "priority" := VStr pr ]}.
Proof.
  destruct (fields_lookups text pr) as (Ht & Hp & Hc).
  unfold apply_defaults, TodoSchema. cbn [fold_left default_value].
  rewrite Ht, Hc. rewrite lookup_insert_ne, Hp by done. done.
Qed.

Lemma validate_fields (text pr : string) :
  nonempty text = true -> includes priorities pr = true ->
  validate TodoSchema {[ "task" := VStr text; "priority" := VStr pr ]} = true.
Proof.
  intros Htext Hpr.
  destruct (fields_lookups text pr) as (Ht & Hp & Hc).
  unfold validate, TodoSchema.
  cbn [forallb valid_field required enum type andb orb negb].
  by rewrite Ht, Hp, Hc, Htext, Hpr.
Qed.

(** What [create] makes of the two fields that [POST /add] hands over *)
Lemma collection_create_doc (c : Collection) (text pr : string) :
  nonempty text = true -> pr ∈ priorities ->
  exists doc,
    collection_create c {[ "task" := VStr text; "priority" := VStr pr ]}
    = Resolved (doc, {| docs := docs c ++ [doc];
                        counter := counter c + 1;
                        clock := clock c + 1 |})
    /\ get doc "_id" = VStr (oid (counter c))
    /\ doc !! "task" = Some (VStr text)
    /\ doc !! "priority" = Some (VStr pr)
    /\ doc !! "completed" = Some (VBool false).
Proof.
  intros Htext Hpr%includes_elem_of.
  unfold collection_create.
  rewrite validate_fields, apply_defaults_fields by done.
  eexists. split; [reflexivity |]. unfold stamp, get.
  cbn [fold_left timestamps].
  repeat split.
Qed.

(** A call on [TodoModel] that rejects sends the delete and the update to
    their [catch]. *)
Lemma rejected_call_500 {Db : Type} `{Model Db} (st : Server Db)
    (id : string) :
  useDb st = true -> nonempty id = true ->
  (model_findByIdAndDelete (db st) id = Rejected ->
   delete_todo st id = (internal_error, st))
  /\ forall body update,
       build_update body = Some update -> size update <> 0 ->
       model_findByIdAndUpdate (db st) id update = Rejected ->
       update_todo st id body = (internal_error, st).
Proof.
  intros Hdb Hid. split.
  - intros Hrej. unfold delete_todo. by rewrite Hid, Hdb, Hrej.
  - intros body update Hu Hsize Hrej. unfold update_todo. rewrite Hu. simpl.
    destruct (Nat.eqb_spec (size update) 0) as [| _]; [done |].
    by rewrite Hdb, Hrej.
Qed.


(** * The handlers at work *)

Lemma reachable_one_todo : reachable one_todo.
Proof. apply reachable_run, reachable_initial. Defined.

Lemma reachable_two_todos : reachable two_todos.
Proof. apply reachable_run, reachable_initial. Defined.

Example two_todos_list :
  map map_to_list (inMemoryTodos two_todos) =
    [ [("_id", VStr "1000"); ("task", VStr "Buy milk");
       ("priority", VStr "medium")];
      [("_id", VStr "2000"); ("task", VStr "Walk the dog");
       ("priority", VStr "high")] ].
Proof. vm_compute. reflexivity. Qed.

(** A priority that cannot be converted to a string sends the create to
    its [catch]. *)
Example add_priority_throws :
  add ephemeral 1000
    (<["priority" := VObj [("toString", VNum (Int 1))]]> buy_milk)
  = (internal_error, ephemeral).
Proof. vm_compute. reflexivity. Qed.

(** C1 as stated fails: the todo is stored under 1000, the body holds
    nothing but a priority outside the three, and the answer is 400, not
    the record. *)
Lemma invalid_priority_alone_rejected :
  List.find (stored_under "1000") (inMemoryTodos one_todo)
    = Some (new_todo 1000 "Buy milk" "medium")
  /\ update_todo one_todo "1000" {[ "priority" := VStr "urgent" ]}
     = (error 400 "nothing to update", one_todo)
  /\ status (fst (update_todo one_todo "1000"
                    {[ "priority" := VStr "urgent" ]})) <> 200.
Proof. vm_compute. repeat split; congruence. Qed.

Lemma update_invalid_priority_witness :
  update_todo one_todo "1000" {[ "priority" := VStr "urgent" ]}
    = (error 400 "nothing to update", one_todo)
  /\ exists st',
       update_todo one_todo "1000"
         {[ "priority" := VStr "urgent"; "completed" := VBool true ]}
       = (json (PTodo ({[ "completed" := VBool true ]}
                         ∪ new_todo 1000 "Buy milk" "medium")), st')
       /\ ({[ "completed" := VBool true ]}
             ∪ new_todo 1000 "Buy milk" "medium") !! "priority"
          = new_todo 1000 "Buy milk" "medium" !! "priority"
       /\ Forall2 (fun a b => b !! "priority" = a !! "priority")
            (inMemoryTodos one_todo) (inMemoryTodos st').
Proof.
  split.
  - apply (update_invalid_priority one_todo "1000"
             {[ "priority" := VStr "urgent" ]} "urgent");
      (discriminate || reflexivity).
  - apply (update_invalid_priority one_todo "1000"
             {[ "priority" := VStr "urgent"; "completed" := VBool true ]}
             "urgent");
      try (discriminate || reflexivity).
    + apply reachable_one_todo.
    + right. discriminate.
Defined.

(** C2 fails on the in-memory backend: the record created there, and the
    response that shows it, has no [completed] property at all, where the
    collection, filling in the schema default, answers [completed: false]. *)
Theorem add_in_memory_omits_completed :
  add ephemeral 1000 buy_milk
    = (json (PTodo (new_todo 1000 "Buy milk" "medium")),
       set_todos ephemeral [new_todo 1000 "Buy milk" "medium"])
  /\ new_todo 1000 "Buy milk" "medium" !! "completed" = None
  /\ get (new_todo 1000 "Buy milk" "medium") "completed" <> VBool false
  /\ exists doc,
       fst (add persistent 1000 buy_milk) = json (PTodo doc)
       /\ doc !! "completed" = Some (VBool false)
       /\ doc !! "task" = Some (VStr "Buy milk")
       /\ doc !! "priority" = Some (VStr "medium").
Proof.
  split; [by vm_compute |]. split; [by vm_compute |].
  split; [by vm_compute |].
  eexists. split; [by vm_compute |]. by vm_compute.
Qed.

(** No record created in memory has a [completed] property. *)
Lemma new_todo_completed (now : Z) (text pr : string) :
  new_todo now text pr !! "completed" = None.
Proof. unfold new_todo. by simplify_map_eq. Qed.

(** C3 fails: an update whose task is three spaces, sent for a stored
    todo, is answered 200 and leaves the empty string as its task. *)
Theorem update_blank_task_stored :
  let blanked : Obj :=
    {[ "_id" := VStr "1000"; "task" := VStr ""; "priority" := VStr "medium" ]} in
  update_todo one_todo "1000" {[ "task" := VStr "   " ]}
    = (json (PTodo blanked), set_todos ephemeral [blanked])
  /\ reachable (set_todos ephemeral [blanked])
  /\ get blanked "task" = VStr "".
Proof.
  intros blanked.
  assert (update_todo one_todo "1000" {[ "task" := VStr "   " ]}
          = (json (PTodo blanked), set_todos ephemeral [blanked])) as Hrun
    by (by vm_compute).
  split; [done |]. split; [| by vm_compute].
  change (set_todos ephemeral [blanked])
    with (snd (json (PTodo blanked), set_todos ephemeral [blanked])).
  rewrite <- Hrun.
  apply (reachable_step one_todo (Update "1000" {[ "task" := VStr "   " ]})).
  apply reachable_one_todo.
Qed.

(** [String(Date.now())] tells two clock readings apart. *)
Lemma number_to_string_inj (a b : Z) :
  number_to_string (Int a) = number_to_string (Int b) -> a = b.
Proof.
  unfold number_to_string. intros Heq.
  assert (forall z, DecimalString.NilZero.int_of_string
                      (DecimalString.NilZero.string_of_int (Z.to_int z))
                    = Some (Z.to_int z)) as Hback.
  { intros z. apply DecimalString.NilZero.isi; destruct z; simpl; try done;
      intros [= Hnil]; by apply DecimalPos.Unsigned.to_uint_nonnil in Hnil. }
  apply DecimalZ.to_int_inj.
  pose proof (Hback a) as Ha. rewrite Heq, Hback in Ha. congruence.
Qed.

(** C4 fails: two creates that read the same clock value are both stored
    under that value, and one delete then removes the two of them. *)
Theorem same_clock_same_id :
  let first := new_todo 1000 "Buy milk" "medium" in
  let second := new_todo 1000 "Walk the dog" "high" in
  run ephemeral [Add 1000 buy_milk; Add 1000 walk; Delete "1000"]
    = ([json (PTodo first); json (PTodo second); json PSuccess], ephemeral)
  /\ inMemoryTodos (snd (run ephemeral [Add 1000 buy_milk; Add 1000 walk]))
     = [first; second]
  /\ get first "_id" = get second "_id"
  /\ get first "task" <> get second "task".
Proof. by vm_compute. Qed.

(** C5 fails on the persistent backend: no document carries the id 3000,
    yet the delete and the update of it are answered 500, because a string
    that is not 24 hexadecimal digits makes the call on [TodoModel] reject
    and the handler lands in its [catch]; the same two requests on the
    in-memory backend are answered 404. *)
Theorem absent_malformed_id_500 :
  Forall (fun d => get d "_id" <> VStr "3000") (docs (db one_document))
  /\ delete_todo one_document "3000" = (internal_error, one_document)
  /\ update_todo one_document "3000" {[ "completed" := VBool true ]}
     = (internal_error, one_document)
  /\ status internal_error = 500
  /\ delete_todo one_todo "3000" = (error 404 "Not found", one_todo)
  /\ update_todo one_todo "3000" {[ "completed" := VBool true ]}
     = (error 404 "Not found", one_todo).
Proof.
  split; [vm_compute; repeat constructor; discriminate |].
  repeat split; vm_compute; reflexivity.
Qed.

Lemma reachable_one_document : reachable one_document.
Proof. apply reachable_run, reachable_initial. Defined.

Lemma missing_id_not_found_witness :
  delete_todo two_todos "3000" = (error 404 "Not found", two_todos)
  /\ update_todo two_todos "3000" {[ "completed" := VBool true ]}
     = (error 404 "Not found", two_todos)
  /\ delete_todo (snd (delete_todo two_todos "1000")) "1000"
     = (error 404 "Not found", snd (delete_todo two_todos "1000"))
  /\ delete_todo one_document "000000000000000000000002"
     = (error 404 "Not found", one_document).
Proof.
  destruct (missing_id_not_found two_todos "3000" reachable_two_todos eq_refl)
    as (Habsent & _ & _).
  destruct (missing_id_not_found two_todos "1000" reachable_two_todos eq_refl)
    as (_ & Hagain & _).
  destruct (missing_id_not_found one_document "000000000000000000000002"
              reachable_one_document eq_refl) as (_ & _ & Hdb).
  destruct Habsent as [Hdelete Hupdate]; [reflexivity | |].
  { vm_compute. repeat constructor; discriminate. }
  split; [exact Hdelete |]. split.
  { apply (Hupdate _ {[ "completed" := VBool true ]}).
    - reflexivity.
    - vm_compute. discriminate. }
  split.
  { apply Hagain; reflexivity. }
  destruct (Hdb eq_refl) as [Hnone _].
  apply (Hnone (db one_document)). vm_compute. reflexivity.
Defined.


Lemma add_blank_task_rejected_witness :
  add one_todo 2000 {[ "task" := VStr "   " ]}
    = (error 400 "task is required", one_todo)
  /\ add one_todo 2000 {[ "priority" := VStr "low" ]}
     = (error 400 "task is required", one_todo)
  /\ add one_document 2000 {[ "task" := VStr "   " ]}
     = (error 400 "task is required", one_document).
Proof.
  split; [| split].
  - apply add_blank_task_rejected. right. right. exists "   ".
    split; reflexivity.
  - apply add_blank_task_rejected. left. reflexivity.
  - apply add_blank_task_rejected. right. right. exists "   ".
    split; reflexivity.
Defined.

Lemma update_nothing_rejected_witness :
  update_todo one_todo "1000" ∅ = (error 400 "nothing to update", one_todo)
  /\ update_todo one_document "000000000000000000000001"
       {[ "priority" := VStr "urgent" ]}
     = (error 400 "nothing to update", one_document).
Proof.
  split.
  - apply update_nothing_rejected; [reflexivity | reflexivity |].
    left. reflexivity.
  - apply update_nothing_rejected; [reflexivity | reflexivity |].
    right. exists "urgent". split; reflexivity.
Defined.

Lemma update_changes_only_addressed_witness :
  exists update,
    build_update {[ "completed" := VStr "false" ]} = Some update
    /\ (forall k, k <> "task" -> k <> "completed" -> k <> "priority" ->
                  update !! k = None)
    /\ useDb (snd (update_todo two_todos "1000"
                     {[ "completed" := VStr "false" ]})) = useDb two_todos
    /\ db (snd (update_todo two_todos "1000"
                  {[ "completed" := VStr "false" ]})) = db two_todos
    /\ Forall2
         (fun t t' =>
            get t' "_id" = get t "_id"
            /\ (get t "_id" <> VStr "1000" -> t' = t)
            /\ forall k, update !! k = None -> t' !! k = t !! k)
         (inMemoryTodos two_todos)
         (inMemoryTodos (snd (update_todo two_todos "1000"
                                {[ "completed" := VStr "false" ]}))).
Proof.
  apply (update_changes_only_addressed two_todos "1000"
           {[ "completed" := VStr "false" ]}
           (fst (update_todo two_todos "1000"
                   {[ "completed" := VStr "false" ]}))).
  - apply reachable_two_todos.
  - reflexivity.
  - apply surjective_pairing.
  - vm_compute. reflexivity.
Defined.

Example update_completed_string_false :
  map map_to_list
    (inMemoryTodos (snd (update_todo two_todos "1000"
                           {[ "completed" := VStr "false" ]})))
  = [ [("_id", VStr "1000"); ("completed", VBool true);
       ("task", VStr "Buy milk"); ("priority", VStr "medium")];
      [("_id", VStr "2000"); ("task", VStr "Walk the dog");
       ("priority", VStr "high")] ].
Proof. vm_compute. reflexivity. Qed.

(** * More of the handlers *)

Section Routes.

Context {Db : Type} `{Model Db}.

Implicit Types (st : Server Db) (body update : Obj) (id : string).

Lemma assign_matches id update (t : Obj) :
  update !! "_id" = None -> matches id (update ∪ t) = matches id t.
Proof.
  intros Hk. unfold matches, get. by rewrite assign_lookup_other.
Qed.

(** When the callback of [map] has set [found], [find] meets a todo in the
    new list, whatever the list held. *)
Lemma map_todos_find id update (found : bool) (todos todos' : list Obj) :
  update !! "_id" = None ->
  map_todos id update found todos = Some (todos', true) ->
  found = false ->
  exists todo, find_todo id todos' = Some (Some todo).
Proof.
  intros Hk. revert found todos'.
  induction todos as [| t todos IH]; intros found todos'; simpl.
  - intros [= <- ->]. done.
  - destruct (matches id t) as [m |] eqn:Hm; simpl; [| done].
    destruct (map_todos id update _ todos) as [[rest f] |] eqn:Hrest;
      simpl; [| done].
    intros [= <- ->] ->. simpl. destruct m.
    + rewrite assign_matches, Hm by done. simpl. eauto.
    + rewrite Hm. simpl. by eapply IH.
Qed.

(** Each route answers only in its own ways: the list or 500 for a read;
    the record, 400 for the task or 500 for a create; success, 400 for the
    id, 404 or 500 for a delete; the record, 400 for an empty update, 404
    or 500 for an update.  An update that found its todo always has a
    record to answer with. *)
Theorem route_answers st (req : Request) :
  let r := fst (handle st req) in
  match req with
  | GetTodos => (exists todos, r = json (PTodos todos)) \/ r = internal_error
  | Add _ _ =>
      (exists todo, r = json (PTodo todo))
      \/ r = error 400 "task is required" \/ r = internal_error
  | Delete _ =>
      r = json PSuccess \/ r = error 400 "id required"
      \/ r = error 404 "Not found" \/ r = internal_error
  | Update _ _ =>
      (exists todo, r = json (PTodo todo))
      \/ r = error 400 "nothing to update"
      \/ r = error 404 "Not found" \/ r = internal_error
  end.
Proof.
  destruct req as [| now body | id | id body]; simpl.
  - unfold get_todos.
    destruct (useDb st); [destruct (model_find (db st)) |]; simpl; eauto.
  - unfold add, catch.
    destruct (blank_task _) as [[] |]; simpl; eauto.
    destruct (normalize_priority _); simpl; eauto.
    destruct (to_string _); simpl; eauto.
    destruct (useDb st); simpl; eauto.
    unfold create_persistent.
    destruct (model_create _ _) as [[created d] |]; simpl; eauto.
    destruct (model_findById _ _) as [[] |]; simpl; eauto.
  - unfold delete_todo.
    destruct (nonempty id); simpl; eauto.
    destruct (useDb st).
    + destruct (model_findByIdAndDelete _ _) as [[[] d] |]; simpl; eauto.
    + unfold catch. destruct (filter_todos _ _); simpl; eauto.
      destruct (_ =? _)%nat; simpl; eauto.
  - unfold update_todo, catch.
    destruct (build_update body) as [update |] eqn:Hu; simpl; eauto.
    destruct (size update =? 0)%nat; simpl; eauto.
    destruct (useDb st).
    + destruct (model_findByIdAndUpdate _ _ _) as [[[] d] |]; simpl; eauto.
    + destruct (map_todos _ _ _ _) as [[todos found] |] eqn:Hmap; simpl;
        eauto.
      destruct found; simpl; eauto.
      destruct (find_todo id todos) as [[todo |] |] eqn:Hfind; simpl; eauto.
      destruct (map_todos_find id update false (inMemoryTodos st) todos)
        as [todo Htodo]; eauto using build_update_id.
      congruence.
Qed.

Lemma handle_backend st (req : Request) :
  useDb (snd (handle st req)) = useDb st
  /\ (useDb st = false -> db (snd (handle st req)) = db st)
  /\ (useDb st = true ->
      inMemoryTodos (snd (handle st req)) = inMemoryTodos st).
Proof.
  destruct (useDb st) eqn:Hdb;
    destruct req as [| now body | id | id body]; simpl.
  - unfold get_todos. rewrite Hdb. by destruct (model_find (db st)).
  - unfold add, catch. rewrite Hdb.
    destruct (blank_task _) as [[] |]; simpl; try done.
    destruct (normalize_priority _); simpl; try done.
    destruct (to_string _); simpl; try done.
    unfold create_persistent.
    destruct (model_create _ _) as [[created d] |]; [| done].
    by destruct (model_findById _ _) as [[] |].
  - unfold delete_todo. rewrite Hdb.
    destruct (nonempty id); simpl; [| done].
    by destruct (model_findByIdAndDelete _ _) as [[[] d] |].
  - unfold update_todo, catch. rewrite Hdb.
    destruct (build_update body) as [update |]; simpl; [| done].
    destruct (size update =? 0)%nat; simpl; [done |].
    by destruct (model_findByIdAndUpdate _ _ _) as [[[] d] |].
  - unfold get_todos. by rewrite Hdb.
  - unfold add, catch. rewrite Hdb.
    destruct (blank_task _) as [[] |]; simpl; try done.
    destruct (normalize_priority _); simpl; try done.
    by destruct (to_string _).
  - unfold delete_todo. rewrite Hdb.
    destruct (nonempty id); simpl; [| done].
    unfold catch. by destruct (filter_todos _ _).
  - unfold update_todo, catch. rewrite Hdb.
    destruct (build_update body) as [update |]; simpl; [| done].
    destruct (size update =? 0)%nat; simpl; [done |].
    destruct (map_todos _ _ _ _) as [[todos found] |]; simpl; [| done].
    destruct found; simpl; [| done].
    by destruct (find_todo id todos) as [[] |].
Qed.

(** The backend chosen at start is never chosen again: whatever requests
    come, [useDb] keeps its value, a server on memory leaves the collection
    alone, and a server on the collection leaves the in-memory list alone. *)
Theorem backend_never_changes st (reqs : list Request) :
  useDb (snd (run st reqs)) = useDb st
  /\ (useDb st = false -> db (snd (run st reqs)) = db st)
  /\ (useDb st = true ->
      inMemoryTodos (snd (run st reqs)) = inMemoryTodos st).
Proof.
  revert st. induction reqs as [| req reqs IH]; intros st; [done |].
  simpl. pose proof (handle_backend st req) as (Huse & Hdb & Hmem).
  destruct (handle st req) as [r st1]. simpl in *.
  specialize (IH st1). destruct (run st1 reqs) as [rs st2]. simpl in *.
  destruct IH as (Huse' & Hdb' & Hmem').
  repeat split.
  - congruence.
  - intros Hst. rewrite Hdb', Hdb; congruence.
  - intros Hst. rewrite Hmem', Hmem; congruence.
Qed.

Lemma to_string_convertible (v : Val) :
  convertible v = true -> exists s, to_string v = Some s.
Proof. unfold convertible. destruct (to_string v); eauto. done. Qed.

Lemma build_update_convertible body :
  convertible (get body "task") = true ->
  convertible (get body "priority") = true ->
  exists update, build_update body = Some update.
Proof.
  intros [s Hs]%to_string_convertible [p Hp]%to_string_convertible.
  unfold build_update. rewrite Hs, Hp. simpl.
  destruct (is_undefined (get body "task")),
    (is_undefined (get body "priority")); simpl; eauto.
Qed.

(** On the in-memory backend, a request whose task and priority have a
    string form is never answered 500. *)
Theorem plain_request_no_500 st (req : Request) :
  reachable st -> useDb st = false -> plain req = true ->
  status (fst (handle st req)) <> 500.
Proof.
  intros Hall%reachable_string_ids Hmem Hplain.
  destruct req as [| now body | id | id body]; simpl in *.
  - unfold get_todos. by rewrite Hmem.
  - apply andb_true_iff in Hplain as
      [[s Hs]%to_string_convertible [p Hp]%to_string_convertible].
    unfold add, catch, blank_task, normalize_priority. rewrite Hs, Hp.
    destruct (truthy (get body "task")); simpl; [| done].
    destruct (nonempty (trim s)); simpl; [| done].
    destruct (is_undefined (get body "priority")); simpl; by rewrite Hmem.
  - destruct (nonempty id) eqn:Hid.
    + rewrite (delete_in_memory st id Hmem Hid Hall). simpl.
      by destruct (_ =? _)%nat.
    + unfold delete_todo. by rewrite Hid.
  - apply andb_true_iff in Hplain as [Ht Hp].
    destruct (build_update_convertible body Ht Hp) as [update Hu].
    destruct (Nat.eqb_spec (size update) 0) as [Hz | Hnz].
    + unfold update_todo. rewrite Hu. simpl. by rewrite Hz.
    + rewrite (update_in_memory st id body update) by done.
      by destruct (List.find _ _).
Qed.

(** ** Creating, listing and deleting *)

(** A create that succeeded in memory shows in the next listing: the list
    as it was, then the record that the create answered with. *)
Theorem create_then_list st (now : Z) body (r : Response) (st' : Server Db) :
  useDb st = false ->
  add st now body = (r, st') -> status r = 200 ->
  exists todo,
    r = json (PTodo todo)
    /\ get_todos st' = (json (PTodos (inMemoryTodos st ++ [todo])), st').
Proof.
  intros Hmem Hadd Hok.
  unfold add, catch, blank_task in Hadd. rewrite Hmem in Hadd.
  destruct (truthy (get body "task")); simpl in Hadd; [| by simplify_eq].
  destruct (to_string (get body "task")); simpl in Hadd; [| by simplify_eq].
  destruct (nonempty (trim _)); simpl in Hadd; [| by simplify_eq].
  destruct (normalize_priority _); simpl in Hadd; [| by simplify_eq].
  unfold create_ephemeral in Hadd. simplify_eq.
  eexists. split; [done |]. unfold get_todos. simpl. by rewrite Hmem.
Qed.

Lemma filter_shorter id (todos : list Obj) :
  existsb (stored_under id) todos = true ->
  length (List.filter (fun t => negb (stored_under id t)) todos)
  < length todos.
Proof.
  induction todos as [| t todos IH]; [done |]. simpl.
  pose proof (List.filter_length_le (fun t => negb (stored_under id t)) todos).
  destruct (stored_under id t); simpl; [lia |].
  intros Hrest%IH. lia.
Qed.

Lemma stored_under_true id (t : Obj) :
  stored_under id t = true <-> get t "_id" = VStr id.
Proof.
  unfold stored_under. destruct (get t "_id") as [| | | | s | |]; simpl;
    try (split; congruence).
  rewrite String.eqb_eq. split; congruence.
Qed.

(** A delete on the in-memory list answers 200 exactly when a todo is
    stored under the id.  It then removes every todo stored under it and
    keeps the others, in their order; none is stored under the id
    afterwards. *)
Theorem delete_removes st id :
  reachable st -> useDb st = false -> nonempty id = true ->
  let kept :=
    List.filter (fun t => negb (stored_under id t)) (inMemoryTodos st) in
  snd (delete_todo st id) = set_todos st kept
  /\ (status (fst (delete_todo st id)) = 200
      <-> exists t, t ∈ inMemoryTodos st /\ get t "_id" = VStr id)
  /\ (forall t, t ∈ kept <-> t ∈ inMemoryTodos st /\ get t "_id" <> VStr id).
Proof.
  intros Hall%reachable_string_ids Hmem Hid kept.
  rewrite (delete_in_memory st id Hmem Hid Hall). simpl. fold kept.
  split; [done |]. split.
  - destruct (existsb (stored_under id) (inMemoryTodos st)) eqn:Hex.
    + pose proof (filter_shorter id _ Hex) as Hlt. fold kept in Hlt.
      destruct (Nat.eqb_spec (length kept) (length (inMemoryTodos st)));
        [lia |].
      split; [intros _ | done].
      apply existsb_exists in Hex as (t & Hin & Ht).
      exists t. split; [by apply list_elem_of_In | by apply stored_under_true].
    + unfold kept. rewrite absent_kept, Nat.eqb_refl by done.
      split; [done |]. intros (t & Hin & Ht). exfalso.
      assert (existsb (stored_under id) (inMemoryTodos st) = true);
        [| congruence].
      apply existsb_exists. exists t.
      split; [by apply list_elem_of_In | by apply stored_under_true].
  - intros t. unfold kept.
    rewrite list_elem_of_In, filter_In, <- list_elem_of_In, negb_true_iff.
    rewrite <- stored_under_true.
    destruct (stored_under id t); intuition congruence.
Qed.

Lemma number_to_string_nonempty (n : Z) :
  nonempty (number_to_string (Int n)) = true.
Proof.
  unfold number_to_string. destruct (Z.to_int n) as [d | d]; [| done].
  by destruct d.
Qed.

(** A create followed by the delete of the id it gave, when no todo was
    stored under that id before, leaves the server as it was. *)
Theorem create_then_delete st (now : Z) body :
  reachable st -> useDb st = false ->
  Forall (fun t => get t "_id" <> VStr (number_to_string (Int now)))
    (inMemoryTodos st) ->
  status (fst (add st now body)) = 200 ->
  delete_todo (snd (add st now body)) (number_to_string (Int now))
  = (json PSuccess, st).
Proof.
  intros Hreach Hmem Hfresh%absent_existsb Hok.
  pose proof (reachable_step st (Add now body) Hreach) as Hreach'.
  simpl in Hreach'. apply reachable_string_ids in Hreach'.
  destruct (add_in_memory st now body Hmem)
    as [Hsame | (text & pr & _ & _ & Hnew)].
  - exfalso. revert Hok Hsame.
    unfold add, catch, blank_task. rewrite Hmem.
    destruct (truthy (get body "task")); simpl; [| done].
    destruct (to_string (get body "task")); simpl; [| done].
    destruct (nonempty (trim _)); simpl; [| done].
    destruct (normalize_priority _); simpl; [| done].
    intros _ Hsame%(f_equal inMemoryTodos). simpl in Hsame.
    apply (f_equal (@length Obj)) in Hsame. rewrite length_app in Hsame.
    simpl in Hsame. lia.
  - rewrite Hnew in *. simpl in *.
    rewrite (delete_in_memory
               (set_todos st (inMemoryTodos st ++ [new_todo now (trim text) pr]))
               _ Hmem (number_to_string_nonempty now) Hreach').
    simpl. rewrite List.filter_app, absent_kept by done. simpl.
    assert (stored_under (number_to_string (Int now))
              (new_todo now (trim text) pr) = true) as ->.
    { apply stored_under_true. unfold new_todo, get.
      by rewrite lookup_insert_eq. }
    simpl. rewrite app_nil_r, length_app. simpl.
    destruct (Nat.eqb_spec (length (inMemoryTodos st))
                (length (inMemoryTodos st) + 1)); [lia |].
    by destruct st.
Qed.

(** ** Updating *)

Lemma assigned_string_ids id update (todos : list Obj) :
  update !! "_id" = None ->
  Forall has_string_id todos -> Forall has_string_id (assigned id update todos).
Proof.
  intros Hk Hall. apply Forall_map. eapply Forall_impl; [done |].
  intros t Ht. simpl.
  destruct (stored_under id t); eauto using assign_has_string_id.
Qed.

Lemma assigned_written id update (todos : list Obj) (k : string) (v : Val) :
  update !! "_id" = None -> update !! k = Some v ->
  Forall (fun t' => stored_under id t' = true -> t' !! k = Some v)
    (assigned id update todos).
Proof.
  intros Hid Hk. apply Forall_map, Forall_forall. intros t _. simpl.
  destruct (stored_under id t) eqn:Ht.
  - intros _. by apply lookup_union_Some_l.
  - congruence.
Qed.

(** An update that succeeded in memory answers with the record that the
    list now holds first under the id, and every todo under the id holds
    what was sent: the task trimmed, the priority in lower case when that
    is one of the three. *)
Theorem update_written_fields st id body (r : Response) (st' : Server Db) :
  reachable st -> useDb st = false ->
  update_todo st id body = (r, st') -> status r = 200 ->
  exists todo,
    r = json (PTodo todo)
    /\ List.find (stored_under id) (inMemoryTodos st') = Some todo
    /\ (forall s, get body "task" <> VUndefined ->
                  to_string (get body "task") = Some s ->
                  Forall (fun t' => stored_under id t' = true ->
                                    t' !! "task" = Some (VStr (trim s)))
                    (inMemoryTodos st'))
    /\ (forall s, get body "priority" <> VUndefined ->
                  to_string (get body "priority") = Some s ->
                  includes priorities (toLowerCase s) = true ->
                  Forall (fun t' => stored_under id t' = true ->
                                    t' !! "priority"
                                    = Some (VStr (toLowerCase s)))
                    (inMemoryTodos st')).
Proof.
  intros Hreach Hmem Hrun Hok.
  destruct (update_success st id body r st' Hreach Hmem Hrun Hok)
    as (update & t & Hu & _ & Hfind & -> & ->).
  pose proof (build_update_id body update Hu) as Hid.
  destruct (build_update_lookup body update Hu) as (Htask & _ & Hpr & _).
  exists (update ∪ t). split; [done |]. simpl. split; [| split].
  - unfold assigned. by rewrite find_assigned, Hfind.
  - intros s Hdef%is_undefined_false Hs.
    apply assigned_written; [done |]. by rewrite Htask, Hdef, Hs.
  - intros s Hdef%is_undefined_false Hs Hin.
    apply assigned_written; [done |].
    rewrite Hpr, Hdef, Hs. simpl. by rewrite Hin.
Qed.

Lemma assigned_twice id update (todos : list Obj) :
  update !! "_id" = None ->
  assigned id update (assigned id update todos) = assigned id update todos.
Proof.
  intros Hid. unfold assigned. rewrite map_map. apply map_ext. intros t.
  destruct (stored_under id t) eqn:Ht.
  - by rewrite assign_stored_under, Ht, (assoc_L (∪)), (idemp_L (∪)).
  - by rewrite Ht.
Qed.

(** Sending the same update again changes nothing more: the answer and the
    state are those of the first time. *)
Theorem update_twice st id body :
  reachable st -> useDb st = false ->
  update_todo (snd (update_todo st id body)) id body = update_todo st id body.
Proof.
  intros Hall%reachable_string_ids Hmem.
  destruct (build_update body) as [update |] eqn:Hu.
  - pose proof (build_update_id body update Hu) as Hid.
    destruct (Nat.eqb_spec (size update) 0) as [Hz | Hnz].
    + unfold update_todo. rewrite Hu. simpl. rewrite Hz. simpl.
      by rewrite ?Hu; simpl; rewrite ?Hz.
    + rewrite (update_in_memory st id body update) by done.
      destruct (List.find _ _) as [t |] eqn:Hfind; simpl.
      * rewrite (update_in_memory _ id body update); simpl;
          auto using assigned_string_ids.
        fold (assigned id update (inMemoryTodos st)).
        unfold assigned at 1. rewrite find_assigned, Hfind by done. simpl.
        fold (assigned id update (assigned id update (inMemoryTodos st))).
        rewrite assigned_twice, (assoc_L (∪)), (idemp_L (∪)) by done.
        { by destruct st. }
        by apply (assigned_string_ids id update).
      * rewrite (update_in_memory st id body update) by done.
        by rewrite Hfind.
  - unfold update_todo. rewrite Hu. simpl. by rewrite ?Hu.
Qed.

(** ** What the in-memory list holds *)

Lemma trimEnd_twice (s : string) : trimEnd (trimEnd s) = trimEnd s.
Proof.
  induction s as [| c r IH]; [done |]. simpl.
  destruct (trimEnd r) as [| d x] eqn:Hr.
  - destruct (is_space c) eqn:Hc; simpl; [done |]. by rewrite Hc.
  - simpl in *. by rewrite IH.
Qed.

Lemma trimStart_head (s : string) :
  match trimStart s with
  | EmptyString => True
  | String c _ => is_space c = false
  end.
Proof.
  induction s as [| c r IH]; [done |]. simpl.
  by destruct (is_space c) eqn:Hc; [| simpl].
Qed.

Lemma trimEnd_head (c : ascii) (r : string) :
  is_space c = false -> exists r', trimEnd (String c r) = String c r'.
Proof.
  intros Hc. simpl. destruct (trimEnd r); rewrite ?Hc; eauto.
Qed.

(** Trimming what is trimmed changes nothing. *)
Lemma trim_twice (s : string) : trim (trim s) = trim s.
Proof.
  unfold trim. pose proof (trimStart_head s) as Hhead.
  destruct (trimStart s) as [| c r]; [done |].
  destruct (trimEnd_head c r Hhead) as [r' Hr'].
  rewrite Hr'. simpl trimStart. rewrite Hhead, <- Hr'.
  apply trimEnd_twice.
Qed.

Lemma well_formed_string_id (t : Obj) : well_formed t -> has_string_id t.
Proof. intros ([n Hn] & _). by eexists. Qed.

Lemma new_todo_well_formed (now : Z) (text pr : string) :
  pr ∈ priorities -> well_formed (new_todo now (trim text) pr).
Proof.
  intros Hpr. unfold well_formed, new_todo. repeat split.
  - eexists. by simplify_map_eq.
  - eexists. split; [by simplify_map_eq | apply trim_twice].
  - eexists. split; [by simplify_map_eq | done].
  - left. by simplify_map_eq.
  - intros k ? ? ? ?. by simplify_map_eq.
Qed.

Lemma assign_well_formed body update (t : Obj) :
  build_update body = Some update ->
  well_formed t -> well_formed (update ∪ t).
Proof.
  intros Hu (Hid & Htask & Hpr & Hdone & Hother).
  destruct (build_update_lookup body update Hu)
    as (Hutask & Hudone & Hupr & Huother).
  repeat split.
  - destruct Hid as [n Hn]. exists n.
    by rewrite assign_lookup_other by eauto using build_update_id.
  - destruct (update !! "task") as [v |] eqn:Hv.
    + destruct (is_undefined (get body "task")); [done |].
      destruct (to_string (get body "task")) as [s |]; simplify_eq/=.
      exists (trim s). split; [by apply lookup_union_Some_l |].
      apply trim_twice.
    + destruct Htask as (text & Ht & Htrim). exists text.
      by rewrite assign_lookup_other.
  - destruct (update !! "priority") as [v |] eqn:Hv.
    + destruct (is_undefined (get body "priority")); [done |].
      destruct (to_string (get body "priority")) as [s |]; simplify_eq/=.
      destruct (includes priorities (toLowerCase s)) eqn:Hin; simplify_eq/=.
      exists (toLowerCase s).
      split; [by apply lookup_union_Some_l | by apply includes_elem_of].
    + destruct Hpr as (pr & Ht & Hin). exists pr.
      by rewrite assign_lookup_other.
  - destruct (update !! "completed") as [v |] eqn:Hv.
    + right. destruct (is_undefined (get body "completed")); [done |].
      simplify_eq/=. eexists. by apply lookup_union_Some_l.
    + by rewrite assign_lookup_other.
  - intros k ? ? ? ?. rewrite assign_lookup_other; auto.
Qed.

Lemma handle_well_formed st (req : Request) :
  useDb st = false ->
  Forall well_formed (inMemoryTodos st) ->
  Forall well_formed (inMemoryTodos (snd (handle st req))).
Proof.
  intros Hmem Hall.
  assert (Forall has_string_id (inMemoryTodos st)) as Hids
    by (eapply Forall_impl; eauto using well_formed_string_id).
  destruct req as [| now body | id | id body]; simpl.
  - unfold get_todos. by rewrite Hmem.
  - destruct (add_in_memory st now body Hmem)
      as [-> | (text & pr & _ & Hpr & ->)]; [done |].
    simpl. apply Forall_app. split; [done |].
    constructor; [by apply new_todo_well_formed | constructor].
  - destruct (nonempty id) eqn:Hid.
    + rewrite (delete_in_memory st id Hmem Hid Hids). simpl.
      by apply Forall_filter_list.
    + unfold delete_todo. by rewrite Hid.
  - destruct (build_update body) as [update |] eqn:Hu.
    + destruct (Nat.eqb_spec (size update) 0) as [Hz | Hnz].
      * unfold update_todo. rewrite Hu. simpl. by rewrite Hz.
      * rewrite (update_in_memory st id body update) by done.
        destruct (List.find _ _); [| done]. simpl.
        apply Forall_map. eapply Forall_impl; [exact Hall |].
        intros t Ht. simpl.
        destruct (stored_under id t);
          [by apply (assign_well_formed body) | done].
    + unfold update_todo. by rewrite Hu.
Qed.

(** Every record in the in-memory list has an [_id] that is a clock reading
    in decimal, a task that is a trimmed string, a priority that is one of
    low, medium and high, a [completed] that is a boolean when it is there
    at all, and no other property. *)
Theorem reachable_well_formed st :
  reachable st -> Forall well_formed (inMemoryTodos st).
Proof.
  induction 1 as [use d | st req Hreach IH]; [constructor |].
  destruct (useDb st) eqn:Hmem.
  - destruct (handle_backend st req) as (_ & _ & Hsame).
    by rewrite Hsame.
  - by apply handle_well_formed.
Qed.

(** ** Identifiers *)

Lemma from_clock_string_id (bound : Z) (t : Obj) :
  from_clock bound t -> has_string_id t.
Proof. intros (n & _ & Hn). by eexists. Qed.

Lemma from_clock_le (a b : Z) (t : Obj) :
  (a <= b)%Z -> from_clock a t -> from_clock b t.
Proof. intros Hab (n & Hn & Ht). exists n. split; [lia | done]. Qed.

Lemma ids_filter (f : Obj -> bool) (todos : list Obj) :
  NoDup (ids todos) -> NoDup (ids (List.filter f todos)).
Proof.
  unfold ids. induction todos as [| t todos IH]; simpl; [done |].
  rewrite NoDup_cons. intros [Hnew Hrest].
  destruct (f t); simpl; [| by apply IH].
  apply NoDup_cons. split; [| by apply IH].
  intros Hin. apply Hnew.
  apply list_elem_of_In, in_map_iff in Hin as (t' & Heq & Hin').
  apply list_elem_of_In, in_map_iff. exists t'.
  split; [done |]. by apply filter_In in Hin' as [? _].
Qed.

Lemma ids_assigned id update (todos : list Obj) :
  update !! "_id" = None -> ids (assigned id update todos) = ids todos.
Proof.
  intros Hid. unfold ids, assigned. rewrite map_map. apply map_ext.
  intros t. destruct (stored_under id t); [| done].
  unfold get. by rewrite assign_lookup_other.
Qed.

Lemma handle_ids st (req : Request) (bound : Z) :
  useDb st = false ->
  Forall (from_clock bound) (inMemoryTodos st) ->
  NoDup (ids (inMemoryTodos st)) ->
  match req with Add now _ => (bound < now)%Z | _ => True end ->
  let bound' := match req with Add now _ => now | _ => bound end in
  Forall (from_clock bound') (inMemoryTodos (snd (handle st req)))
  /\ NoDup (ids (inMemoryTodos (snd (handle st req)))).
Proof.
  intros Hmem Hall Hnodup Hclock.
  assert (Forall has_string_id (inMemoryTodos st)) as Hids
    by (eapply Forall_impl; eauto using from_clock_string_id).
  destruct req as [| now body | id | id body]; simpl.
  - unfold get_todos. by rewrite Hmem.
  - assert (Forall (from_clock now) (inMemoryTodos st)) as Hall'.
    { eapply Forall_impl; [exact Hall |]. intros t. apply from_clock_le. lia. }
    destruct (add_in_memory st now body Hmem)
      as [-> | (text & pr & _ & _ & ->)]; [done |].
    simpl. split.
    + apply Forall_app. split; [done |].
      constructor; [| constructor].
      exists now. split; [lia |]. unfold new_todo. by simplify_map_eq.
    + unfold ids. rewrite map_app. simpl. apply NoDup_app.
      split; [done |]. split; [| apply NoDup_singleton].
      intros v Hv Hnew%list_elem_of_singleton. subst v.
      apply list_elem_of_In, in_map_iff in Hv as (t & Heq & Hin).
      apply list_elem_of_In in Hin.
      rewrite Forall_forall in Hall.
      destruct (Hall t Hin) as (n & Hn & Ht).
      unfold get, new_todo in Heq. rewrite Ht in Heq.
      rewrite lookup_insert_eq in Heq. simpl in Heq.
      injection Heq as Heq%number_to_string_inj. lia.
  - destruct (nonempty id) eqn:Hid.
    + rewrite (delete_in_memory st id Hmem Hid Hids). simpl.
      split; [by apply Forall_filter_list | by apply ids_filter].
    + unfold delete_todo. by rewrite Hid.
  - destruct (build_update body) as [update |] eqn:Hu.
    + pose proof (build_update_id body update Hu) as Hk.
      destruct (Nat.eqb_spec (size update) 0) as [Hz | Hnz].
      * unfold update_todo. rewrite Hu. simpl. by rewrite Hz.
      * rewrite (update_in_memory st id body update) by done.
        destruct (List.find _ _); [| done]. simpl.
        fold (assigned id update (inMemoryTodos st)).
        rewrite ids_assigned by done. split; [| done].
        apply Forall_map. eapply Forall_impl; [exact Hall |].
        intros t (n & Hn & Ht). simpl.
        destruct (stored_under id t); [| by exists n].
        exists n. by rewrite assign_lookup_other.
    + unfold update_todo. by rewrite Hu.
Qed.

Lemma run_ids (reqs : list Request) st (bound : Z) :
  useDb st = false ->
  Forall (from_clock bound) (inMemoryTodos st) ->
  NoDup (ids (inMemoryTodos st)) ->
  clocks_increase bound reqs = true ->
  NoDup (ids (inMemoryTodos (snd (run st reqs)))).
Proof.
  revert st bound. induction reqs as [| req reqs IH];
    intros st bound Hmem Hall Hnodup Hclocks; [done |].
  simpl. destruct (handle_backend st req) as (Huse & _ & _).
  assert (match req with Add now _ => (bound < now)%Z | _ => True end
          /\ clocks_increase
               (match req with Add now _ => now | _ => bound end) reqs
             = true) as [Hnow Hrest].
  { destruct req; simpl in Hclocks; try done.
    apply andb_true_iff in Hclocks as [Hlt%Z.ltb_lt ?]. done. }
  destruct (handle_ids st req bound Hmem Hall Hnodup Hnow) as [Hall' Hnodup'].
  destruct (handle st req) as [r st1]. simpl in *.
  specialize (IH st1 _ (eq_trans Huse Hmem) Hall' Hnodup' Hrest).
  by destruct (run st1 reqs).
Qed.

(** When every create reads a later clock value than the create before
    it, the identifiers in the in-memory list are pairwise distinct,
    whatever deletes and updates come in between. *)
Theorem increasing_clock_distinct_ids (d : Db) (reqs : list Request)
    (start_time : Z) :
  clocks_increase start_time reqs = true ->
  NoDup (ids (inMemoryTodos (snd (run (initial false d) reqs)))).
Proof.
  intros Hclocks.
  apply (run_ids reqs (initial false d) start_time); try done; constructor.
Qed.

(** ** Tasks *)

Lemma handle_has_text st (req : Request) :
  useDb st = false ->
  Forall has_string_id (inMemoryTodos st) ->
  keeps_text req = true ->
  Forall has_text (inMemoryTodos st) ->
  Forall has_text (inMemoryTodos (snd (handle st req))).
Proof.
  intros Hmem Hids Hkeeps Hall.
  destruct req as [| now body | id | id body]; simpl in *.
  - unfold get_todos. by rewrite Hmem.
  - destruct (add_in_memory st now body Hmem)
      as [-> | (text & pr & Htext & _ & ->)]; [done |].
    simpl. apply Forall_app. split; [done |].
    constructor; [| constructor].
    exists (trim text). split; [unfold new_todo; by simplify_map_eq |].
    by destruct (trim text).
  - destruct (nonempty id) eqn:Hid.
    + rewrite (delete_in_memory st id Hmem Hid Hids). simpl.
      by apply Forall_filter_list.
    + unfold delete_todo. by rewrite Hid.
  - destruct (build_update body) as [update |] eqn:Hu.
    + destruct (Nat.eqb_spec (size update) 0) as [Hz | Hnz].
      * unfold update_todo. rewrite Hu. simpl. by rewrite Hz.
      * rewrite (update_in_memory st id body update) by done.
        destruct (List.find _ _); [| done]. simpl.
        apply Forall_map. eapply Forall_impl; [exact Hall |].
        intros t (text & Ht & Htext). simpl.
        destruct (stored_under id t); [| by exists text].
        destruct (build_update_lookup body update Hu) as (Htask & _).
        destruct (is_undefined (get body "task")).
        -- exists text. by rewrite assign_lookup_other.
        -- simpl in Hkeeps.
           destruct (to_string (get body "task")) as [s |]; simpl in Htask.
           ++ exists (trim s). split; [by apply lookup_union_Some_l | done].
           ++ exists text. by rewrite assign_lookup_other.
    + unfold update_todo. by rewrite Hu.
Qed.

(** As long as no update sends a task that is blank once trimmed, no task
    in the in-memory list is empty: creates check it, deletes and the other
    updates leave the tasks as they are. *)
Theorem tasks_keep_text (d : Db) (reqs : list Request) :
  forallb keeps_text reqs = true ->
  Forall has_text (inMemoryTodos (snd (run (initial false d) reqs))).
Proof.
  assert (forall st, reachable st -> useDb st = false ->
                     Forall has_text (inMemoryTodos st) ->
                     forallb keeps_text reqs = true ->
                     Forall has_text (inMemoryTodos (snd (run st reqs))))
    as Hrun.
  { induction reqs as [| req reqs IH]; intros st Hreach Hmem Hall Hkeeps;
      [done |].
    simpl in *. apply andb_true_iff in Hkeeps as [Hreq Hrest].
    pose proof (reachable_step st req Hreach) as Hreach'.
    pose proof (handle_has_text st req Hmem
                  (reachable_string_ids st Hreach) Hreq Hall) as Hall'.
    destruct (handle_backend st req) as (Huse & _ & _).
    destruct (handle st req) as [r st1]. simpl in *.
    specialize (IH st1 Hreach' (eq_trans Huse Hmem) Hall' Hrest).
    by destruct (run st1 reqs). }
  intros Hkeeps. apply Hrun; try done; constructor.
Qed.

End Routes.

(** ** Which server listens *)

(** Whether HTTPS is served is decided by the two files alone: HTTPS when
    both can be read and the server starts on them, plain HTTP otherwise;
    the value of USE_HTTPS makes no difference, provided a file that can be
    read is a file that exists. *)
Theorem listen_by_files (USE_HTTPS PORT : option string) (fs : FileSystem)
    (serves : string -> string -> Val -> bool) (keyPath certPath : string) :
  (forall p, is_Some (readFileSync fs p) -> existsSync fs p = true) ->
  listen USE_HTTPS PORT fs serves keyPath certPath =
    match readFileSync fs keyPath, readFileSync fs certPath with
    | Some key, Some cert =>
        if serves key cert (port_of PORT)
        then HttpsListen key cert (port_of PORT)
        else AppListen (port_of PORT)
    | _, _ => AppListen (port_of PORT)
    end.
Proof.
  intros Hfs. unfold listen.
  destruct (readFileSync fs keyPath) as [key |] eqn:Hkey;
    destruct (readFileSync fs certPath) as [cert |] eqn:Hcert; simpl.
  - rewrite !Hfs, orb_true_r by (by rewrite ?Hkey, ?Hcert). simpl.
    by destruct (serves key cert (port_of PORT)).
  - by destruct (_ || _).
  - by destruct (_ || _).
  - by destruct (_ || _).
Qed.

Lemma files_consistent (contents : list (string * string)) (p : string) :
  is_Some (readFileSync (files contents) p) ->
  existsSync (files contents) p = true.
Proof.
  simpl. induction contents as [| [name data] contents IH]; simpl.
  - by intros [? ?].
  - destruct (String.eqb name p); [done | apply IH].
Qed.

(** * The handlers at work, continued *)

Lemma plain_request_no_500_witness :
  status (fst (handle two_todos (Update "1000" {[ "task" := VNum (Int 5) ]})))
  <> 500.
Proof.
  apply plain_request_no_500;
    [apply reachable_two_todos | reflexivity | reflexivity].
Defined.

Lemma create_then_list_witness :
  exists todo,
    fst (add one_todo 2000 walk) = json (PTodo todo)
    /\ get_todos (snd (add one_todo 2000 walk))
       = (json (PTodos (inMemoryTodos one_todo ++ [todo])),
          snd (add one_todo 2000 walk)).
Proof.
  apply (create_then_list one_todo 2000 walk);
    [reflexivity | apply surjective_pairing | reflexivity].
Defined.

Lemma delete_removes_witness :
  snd (delete_todo two_todos "1000")
  = set_todos two_todos
      (List.filter (fun t => negb (stored_under "1000" t))
         (inMemoryTodos two_todos)).
Proof.
  pose proof (delete_removes two_todos "1000" reachable_two_todos
                eq_refl eq_refl) as Hdelete.
  cbv zeta in Hdelete. exact (proj1 Hdelete).
Defined.

Lemma create_then_delete_witness :
  delete_todo (snd (add one_todo 2000 walk)) (number_to_string (Int 2000))
  = (json PSuccess, one_todo).
Proof.
  apply create_then_delete;
    [apply reachable_one_todo | reflexivity | | reflexivity].
  vm_compute. repeat constructor; discriminate.
Defined.

Lemma update_written_fields_witness :
  exists todo,
    fst (update_todo two_todos "2000"
           {[ "task" := VStr " Feed the cat "; "priority" := VStr "Low" ]})
    = json (PTodo todo)
    /\ List.find (stored_under "2000")
         (inMemoryTodos
            (snd (update_todo two_todos "2000"
                    {[ "task" := VStr " Feed the cat ";
                       "priority" := VStr "Low" ]})))
       = Some todo.
Proof.
  destruct (update_written_fields two_todos "2000"
              {[ "task" := VStr " Feed the cat "; "priority" := VStr "Low" ]}
              _ _ reachable_two_todos eq_refl (surjective_pairing _))
    as (todo & Hr & Hfind & _).
  - vm_compute. reflexivity.
  - exists todo. split; assumption.
Defined.

Lemma update_twice_witness :
  update_todo
    (snd (update_todo two_todos "2000" {[ "completed" := VBool true ]}))
    "2000" {[ "completed" := VBool true ]}
  = update_todo two_todos "2000" {[ "completed" := VBool true ]}.
Proof.
  apply update_twice; [apply reachable_two_todos | reflexivity].
Defined.

Lemma reachable_well_formed_witness :
  Forall well_formed (inMemoryTodos two_todos).
Proof. apply reachable_well_formed, reachable_two_todos. Defined.

Lemma increasing_clock_distinct_ids_witness :
  NoDup (ids (inMemoryTodos
                (snd (run ephemeral
                        [Add 1000 buy_milk; Add 2000 walk; Delete "1000";
                         Add 3000 buy_milk])))).
Proof.
  apply (increasing_clock_distinct_ids empty_collection _ 0). reflexivity.
Defined.

Lemma tasks_keep_text_witness :
  Forall has_text
    (inMemoryTodos
       (snd (run ephemeral
               [Add 1000 buy_milk;
                Update "1000" {[ "task" := VStr " Buy oat milk " ]};
                Update "1000" {[ "completed" := VBool true ]}]))).
Proof. apply (tasks_keep_text empty_collection). reflexivity. Defined.

Lemma listen_by_files_witness :
  listen (Some "false") None
    (files [("certs/localhost-key.pem", "KEY"); ("certs/localhost.pem", "CERT")])
    (fun _ _ _ => true) "certs/localhost-key.pem" "certs/localhost.pem"
  = HttpsListen "KEY" "CERT" (VNum (Int 3001))
  /\ listen (Some "true") (Some "8443") (files [])
       (fun _ _ _ => true) "certs/localhost-key.pem" "certs/localhost.pem"
     = AppListen (VStr "8443").
Proof.
  split.
  - rewrite listen_by_files by apply files_consistent. reflexivity.
  - rewrite listen_by_files by apply files_consistent. reflexivity.
Defined.
